(** * formatMapping.py: the KtxImporter format-table generator

    A shallow embedding of [src/MagnumPlugins/KtxImporter/formatMapping.py]
    and the properties of it that the specification states.

    The script reads two headers, scans them line by line with regular
    expressions, builds a dictionary and a list of records, and writes two
    generated files.  Text is modelled as lists of Unicode code points,
    the regular expressions as terms of a small syntax interpreted by a
    backtracking matcher with Python's priorities, the dictionary as a
    [gmap], assertions as an error result, and [print] and file writes as
    updates of an explicit world. *)

From Stdlib Require Import NArith Ascii String.
From stdpp Require Import gmap strings list fin_maps.

Local Open Scope N_scope.

(** ** Text *)

(** A Python [str] is a sequence of code points. *)
Abbreviation char := N (only parsing).
Abbreviation str := (list N) (only parsing).

(** The groups captured by a match, and the rest of a pattern as a
    continuation of the matcher (see [rmatch]). *)
Abbreviation groups := (gmap nat (list N)) (only parsing).
Abbreviation cont :=
  (nat → list N → gmap nat (list N) → option (gmap nat (list N)))
  (only parsing).

(** Literals of the script that are plain ASCII are written as Rocq strings. *)
Fixpoint u (s : string) : str :=
  match s with
  | EmptyString => []
  | String a s' => N_of_ascii a :: u s'
  end.
Arguments u : simpl never.

Definition LF : char := 10.
Definition CR : char := 13.

(** ** Exceptions and effects

    An [assert] that fails raises [AssertionError]; nothing in the script
    catches it, so the interpreter stops there with exit status 1 (the
    script is run by [python3] without [-O], which would skip the
    asserts).  The effects of the script are what it prints and the files
    it writes. *)

Inductive exn : Type := AssertionError.

Inductive res (A : Type) : Type :=
  | Ok (a : A)
  | Raise (e : exn).
Arguments Ok {A} a.
Arguments Raise {A} e.

Definition res_bind {A B : Type} (f : A → res B) (r : res A) : res B :=
  match r with
  | Ok a => f a
  | Raise e => Raise e
  end.

#[export] Instance res_mret : MRet res := @Ok.
#[export] Instance res_mbind : MBind res := @res_bind.

(** [assert b] *)
Definition assert (b : bool) : res unit :=
  if b then Ok () else Raise AssertionError.

Record World : Type := mkWorld {
  stdout : list N;                  (* the text printed so far *)
  files : gmap string (list N)      (* the files of the working directory *)
}.

Definition M (A : Type) : Type := World → res A * World.

Definition M_ret {A : Type} (a : A) : M A := λ w, (Ok a, w).
Definition M_bind {A B : Type} (f : A → M B) (m : M A) : M B :=
  λ w, match m w with
       | (Ok a, w') => f a w'
       | (Raise e, w') => (Raise e, w')
       end.

#[export] Instance M_mret : MRet M := @M_ret.
#[export] Instance M_mbind : MBind M := @M_bind.

(** A computation without effects, run in place. *)
Definition lift {A : Type} (r : res A) : M A := λ w, (r, w).

(** [print(s)] *)
Definition print (s : str) : M unit :=
  λ w, (Ok (), mkWorld (stdout w ++ s ++ [LF]) (files w)).

(** [open(name, 'w')]: the file is created, or emptied if it exists. *)
Definition open_w (name : string) : M unit :=
  λ w, (Ok (), mkWorld (stdout w) (<[name := []]> (files w))).

(** [outfile.write(s)] on the file opened under [name]. *)
Definition write (name : string) (s : str) : M unit :=
  λ w, (Ok (), mkWorld (stdout w) (alter (λ old, old ++ s) name (files w))).

(** [for x in l: body(x)] *)
Fixpoint for_each {A : Type} (l : list A) (body : A → M unit) : M unit :=
  match l with
  | [] => mret ()
  | x :: l' => body x ;; for_each l' body
  end.

(** The exit status of the interpreter. *)
Definition exit_status {A : Type} (r : res A) : Z :=
  match r with
  | Ok _ => 0%Z
  | Raise _ => 1%Z
  end.

(** ** Character classes of [re] on [str] patterns

    For code points below 128 the classes are the ASCII tables of the
    interpreter; above, they are read from the Unicode database, which is
    taken here as three predicates. *)

Section Unicode.

Variable uni_space : char → bool.
Variable uni_alnum : char → bool.
Variable uni_decimal : char → bool.

Definition in_range (lo hi c : char) : bool := (lo <=? c) && (c <=? hi).

(** [\s]: TAB..CR, FS..US and SPACE are the ASCII white space of [str]. *)
Definition is_space (c : char) : bool :=
  if c <? 128 then in_range 9 13 c || in_range 28 32 c else uni_space c.

(** [\d] *)
Definition is_digit (c : char) : bool :=
  if c <? 128 then in_range 48 57 c else uni_decimal c.

(** [\w]: alphanumeric or the underscore. *)
Definition is_word (c : char) : bool :=
  if c <? 128 then
    in_range 48 57 c || in_range 65 90 c || in_range 97 122 c || (c =? 95)
  else uni_alnum c.

(** ** Regular expressions

    The part of the syntax of [re] the script uses.  Repetition is only
    ever applied to a character class. *)

Inductive regex : Type :=
  | Eps                            (* the empty pattern *)
  | Chr (c : char)                 (* a literal character *)
  | Cls (p : char → bool)          (* a class: \s \w \d [...] *)
  | Bol                            (* ^ *)
  | Eol                            (* $ *)
  | Seq (r1 r2 : regex)
  | Alt (r1 r2 : regex)            (* r1|r2 *)
  | Opt (r : regex)                (* r? (greedy) *)
  | Star (p : char → bool)         (* p* (greedy) *)
  | Plus (p : char → bool)         (* p+ (greedy) *)
  | Group (n : nat) (r : regex).   (* the n-th capturing group *)

(** A sequence of patterns, and a literal word. *)
Definition cat (rs : list regex) : regex := foldr Seq Eps rs.
Definition Lit (s : str) : regex := cat (Chr <$> s).

(** *** The matcher

    [re] is a backtracking matcher: at every choice the first alternative
    is tried first and the next one only when the rest of the pattern
    fails.  The rest of the pattern is the continuation [k]; it receives
    the position reached, the text left and the groups captured so far.
    The groups of the successful match are returned ([None]: no match). *)

(** [$] matches at the end of the string and before a newline that ends
    the string. *)
Definition at_end (s : str) : bool :=
  match s with
  | [] => true
  | [c] => c =? LF
  | _ => false
  end.

(** Greedy repetition of a class: take one more character if possible, and
    give it back if the rest then fails. *)
Fixpoint star_cls (p : char → bool) (k : cont) (pos : nat) (s : str)
    (g : groups) : option groups :=
  match s with
  | c :: s' =>
      if p c then
        match star_cls p k (S pos) s' g with
        | Some m => Some m
        | None => k pos s g
        end
      else k pos s g
  | [] => k pos s g
  end.

Fixpoint rmatch (r : regex) (k : cont) (pos : nat) (s : str) (g : groups)
    : option groups :=
  match r with
  | Eps => k pos s g
  | Chr c =>
      match s with
      | c' :: s' => if c' =? c then k (S pos) s' g else None
      | [] => None
      end
  | Cls p =>
      match s with
      | c' :: s' => if p c' then k (S pos) s' g else None
      | [] => None
      end
  | Bol => if (pos =? 0)%nat then k pos s g else None
  | Eol => if at_end s then k pos s g else None
  | Seq r1 r2 => rmatch r1 (rmatch r2 k) pos s g
  | Alt r1 r2 =>
      match rmatch r1 k pos s g with
      | Some m => Some m
      | None => rmatch r2 k pos s g
      end
  | Opt r' =>
      match rmatch r' k pos s g with
      | Some m => Some m
      | None => k pos s g
      end
  | Star p => star_cls p k pos s g
  | Plus p =>
      match s with
      | c' :: s' => if p c' then star_cls p k (S pos) s' g else None
      | [] => None
      end
  | Group n r' =>
      rmatch r' (λ pos' s' g', k pos' s' (<[n := take (pos' - pos) s]> g'))
        pos s g
  end.

(** [re.search]: the first start position, from the left, at which the
    pattern matches. *)
Fixpoint search_from (r : regex) (pos : nat) (s : str) : option groups :=
  match rmatch r (λ _ _ g, Some g) pos s ∅ with
  | Some m => Some m
  | None =>
      match s with
      | [] => None
      | _ :: s' => search_from r (S pos) s'
      end
  end.

Definition re_search (r : regex) (s : str) : option groups :=
  search_from r 0 s.

(** [m.group(n)] of a group that took part in the match. *)
Definition group (m : groups) (n : nat) : str := default [] (m !! n).

(** ** The three patterns of the script *)

(** ['^\s+VK_FORMAT_(\w+) = (\d+),?$'] *)
Definition re_vk : regex :=
  cat [Bol; Plus is_space; Lit (u "VK_FORMAT_"); Group 1 (Plus is_word);
       Lit (u " = "); Group 2 (Plus is_digit); Opt (Chr 44); Eol].

(** ['^\s+(Compressed)?(\w+) = VK_FORMAT_(\w+),?$'] *)
Definition re_fmt : regex :=
  cat [Bol; Plus is_space; Opt (Group 1 (Lit (u "Compressed")));
       Group 2 (Plus is_word); Lit (u " = VK_FORMAT_");
       Group 3 (Plus is_word); Opt (Chr 44); Eol].

(** The class [[U|S]]: inside brackets the bar is an ordinary character. *)
Definition U_bar_S (c : char) : bool := (c =? 85) || (c =? 124) || (c =? 83).

(** ['\w+_([U|S](NORM|INT|FLOAT|RGB))\w*'] *)
Definition re_suffix : regex :=
  cat [Plus is_word; Chr 95;
       Group 1 (Seq (Cls U_bar_S)
                  (Group 2 (Alt (Lit (u "NORM")) (Alt (Lit (u "INT"))
                           (Alt (Lit (u "FLOAT")) (Lit (u "RGB")))))));
       Star is_word].

(** ** Reading a header

    The headers are opened in text mode: every line ending (CR LF, CR or
    LF) reads as LF, and [readlines] cuts the text after each LF. *)

Fixpoint universal_newlines (s : str) : str :=
  match s with
  | [] => []
  | c :: s' =>
      if c =? CR then
        LF :: match s' with
              | [] => []
              | c' :: s'' =>
                  if c' =? LF then universal_newlines s''
                  else universal_newlines s'
              end
      else c :: universal_newlines s'
  end.

Fixpoint split_lines (s : str) : list str :=
  match s with
  | [] => []
  | c :: s' =>
      if c =? LF then [c] :: split_lines s'
      else match split_lines s' with
           | [] => [[c]]
           | l :: ls => (c :: l) :: ls
           end
  end.

Definition readlines (text : str) : list str :=
  split_lines (universal_newlines text).

(** ** The script *)

Record Format : Type := mkFormat {
  compressed : bool;
  magnum : list N;
  vulkan_name : list N;
  vulkan : list N;
  suffix : list N
}.

(** [k in d] *)
Definition mem (k : str) (d : gmap (list N) (list N)) : bool :=
  bool_decide (is_Some (d !! k)).

(** [d[k]] of a key that is present. *)
Definition getitem (d : gmap (list N) (list N)) (k : str) : str :=
  default [] (d !! k).

(** [s.startswith(p)] *)
Fixpoint startswith (s p : str) {struct p} : bool :=
  match p, s with
  | [], _ => true
  | a :: p', b :: s' => (b =? a) && startswith s' p'
  | _ :: _, [] => false
  end.

Definition str_eqb (s t : str) : bool := bool_decide (s = t).

(** The text written at the top of both files.  Code points outside ASCII
    and the double quote (34) are given by number. *)
Definition header_lines : list str :=
  [ u "/*";
    u "    This file is part of Magnum.";
    [];
    u "    Copyright " ++ [169] ++ u " 2010, 2011, 2012, 2013, 2014, 2015, 2016, 2017, 2018, 2019,";
    u "                2020, 2021, 2022, 2023, 2024, 2025";
    u "              Vladim" ++ [237] ++ u "r Vondru" ++ [353] ++ u " <mosra@centrum.cz>";
    u "    Copyright " ++ [169] ++ u " 2021 Pablo Escobar <mail@rvrs.in>";
    [];
    u "    Permission is hereby granted, free of charge, to any person obtaining a";
    u "    copy of this software and associated documentation files (the " ++ [34] ++ u "Software" ++ [34] ++ u "),";
    u "    to deal in the Software without restriction, including without limitation";
    u "    the rights to use, copy, modify, merge, publish, distribute, sublicense,";
    u "    and/or sell copies of the Software, and to permit persons to whom the";
    u "    Software is furnished to do so, subject to the following conditions:";
    [];
    u "    The above copyright notice and this permission notice shall be included";
    u "    in all copies or substantial portions of the Software.";
    [];
    u "    THE SOFTWARE IS PROVIDED " ++ [34] ++ u "AS IS" ++ [34] ++ u ", WITHOUT WARRANTY OF ANY KIND, EXPRESS OR";
    u "    IMPLIED, INCLUDING BUT NOT LIMITED TO THE WARRANTIES OF MERCHANTABILITY,";
    u "    FITNESS FOR A PARTICULAR PURPOSE AND NONINFRINGEMENT. IN NO EVENT SHALL";
    u "    THE AUTHORS OR COPYRIGHT HOLDERS BE LIABLE FOR ANY CLAIM, DAMAGES OR OTHER";
    u "    LIABILITY, WHETHER IN AN ACTION OF CONTRACT, TORT OR OTHERWISE, ARISING";
    u "    FROM, OUT OF OR IN CONNECTION WITH THE SOFTWARE OR THE USE OR OTHER";
    u "    DEALINGS IN THE SOFTWARE.";
    u "*/";
    [];
    u "/* Autogenerated from formatMapping.py! Do not edit! */";
    [] ].

Definition header : str := concat ((λ l, l ++ [LF]) <$> header_lines).
Arguments header : simpl never.

(** The loop over the lines of [flextVk.h]. *)
Fixpoint read_vulkan_formats (lines : list str)
    (vulkan_formats : gmap (list N) (list N)) : res (gmap (list N) (list N)) :=
  match lines with
  | [] => Ok vulkan_formats
  | line :: lines' =>
      match re_search re_vk line with
      | Some m =>
          assert (negb (mem (group m 1) vulkan_formats)) ;;
          read_vulkan_formats lines'
            (<[group m 1 := group m 2]> vulkan_formats)
      | None => read_vulkan_formats lines' vulkan_formats
      end
  end.

(** The body of the loop over the lines of [PixelFormat.h], for a line
    that matched. *)
Definition read_format (vulkan_formats : gmap (list N) (list N))
    (m : groups) : res Format :=
  let compressed := bool_decide (is_Some (m !! 1%nat)) in
  let magnum_name := group m 2 in
  let vulkan_name := group m 3 in
  assert (mem vulkan_name vulkan_formats) ;;
  let suffix := re_search re_suffix vulkan_name in
  match suffix with
  | None => Raise AssertionError
  | Some sm =>
      assert (negb (str_eqb (group sm 1) (u "URGB"))) ;;
      Ok (mkFormat compressed magnum_name vulkan_name
            (getitem vulkan_formats vulkan_name) (group sm 1))
  end.

Fixpoint read_formats (vulkan_formats : gmap (list N) (list N))
    (lines : list str) (formats : list Format) : res (list Format) :=
  match lines with
  | [] => Ok formats
  | line :: lines' =>
      match re_search re_fmt line with
      | Some m =>
          f ← read_format vulkan_formats m;
          read_formats vulkan_formats lines' (formats ++ [f])
      | None => read_formats vulkan_formats lines' formats
      end
  end.

(** [partition]: the items for which [pred] is false, and those for which
    it is true, both in the order of the list. *)
Definition partition {A : Type} (pred : A → bool) (iterable : list A)
    : list A * list A :=
  (List.filter (λ x, negb (pred x)) iterable, List.filter pred iterable).

(** The line written for a record. *)
Definition format_line (f : Format) : str :=
  u "_c(" ++ vulkan f ++ u ", " ++ magnum f ++ u ", " ++ suffix f ++
  u ") /* VK_FORMAT_" ++ vulkan_name f ++ u " */" ++ [LF].

(** [with open(name, 'w') as outfile:] and its body, for one table. *)
Definition write_table (name : string) (columns : str)
    (formats : list Format) : M unit :=
  open_w name ;;
  write name header ;;
  write name columns ;;
  write name (u "#ifdef _c" ++ [LF]) ;;
  for_each formats (λ format, write name (format_line format)) ;;
  write name (u "#endif" ++ [LF]).

(** The whole script, on the texts of the two headers. *)
Definition main (vulkan_header format_header : str) : M unit :=
  vulkan_formats ← lift (read_vulkan_formats (readlines vulkan_header) ∅);
  formats ← lift (read_formats vulkan_formats (readlines format_header) []);
  (if negb (length formats =? 135)%nat
   then print (u "Unexpected number of formats") else mret ()) ;;
  let '(formats, compressed_formats) := partition compressed formats in
  let compressed_formats :=
    List.filter (λ f, negb (startswith (magnum f) (u "Pvrtc2")))
      compressed_formats in
  write_table "formatMapping.hpp"
    (u "/* VkFormat, PixelFormat, Implementation::VkFormatSuffix */" ++ [LF])
    formats ;;
  write_table "compressedFormatMapping.hpp"
    (u "/* VkFormat, CompressedPixelFormat, Implementation::VkFormatSuffix */"
       ++ [LF])
    compressed_formats.

(** * Notions used in the statements *)

(** ** Parses

    [matches r pos a b g g']: the pattern [r], started at position [pos]
    in front of the text [a ++ b], can consume [a] and turn the groups
    [g] into [g'].  The relation says which parses exist; which one the
    matcher takes is its priority order. *)

Inductive matches : regex → nat → str → str → groups → groups → Prop :=
  | m_eps pos b g :
      matches Eps pos [] b g g
  | m_chr c pos b g :
      matches (Chr c) pos [c] b g g
  | m_cls (p : char → bool) c pos b g :
      p c = true → matches (Cls p) pos [c] b g g
  | m_bol b g :
      matches Bol 0 [] b g g
  | m_eol pos b g :
      at_end b = true → matches Eol pos [] b g g
  | m_seq r1 r2 pos a1 a2 b g g1 g2 :
      matches r1 pos a1 (a2 ++ b) g g1 →
      matches r2 (pos + length a1) a2 b g1 g2 →
      matches (Seq r1 r2) pos (a1 ++ a2) b g g2
  | m_alt_l r1 r2 pos a b g g' :
      matches r1 pos a b g g' → matches (Alt r1 r2) pos a b g g'
  | m_alt_r r1 r2 pos a b g g' :
      matches r2 pos a b g g' → matches (Alt r1 r2) pos a b g g'
  | m_opt_some r pos a b g g' :
      matches r pos a b g g' → matches (Opt r) pos a b g g'
  | m_opt_none r pos b g :
      matches (Opt r) pos [] b g g
  | m_star (p : char → bool) pos a b g :
      Forall (λ c, p c = true) a → matches (Star p) pos a b g g
  | m_plus (p : char → bool) pos a b g :
      a ≠ [] → Forall (λ c, p c = true) a → matches (Plus p) pos a b g g
  | m_group n r pos a b g g' :
      matches r pos a b g g' →
      matches (Group n r) pos a b g (<[n := a]> g').

(** The end of a line that matched: an optional comma, then [$]. *)
Definition line_ends : list str := [ []; [LF]; [44]; [44; LF] ].

(** A text is made of whole lines when it is empty or ends in a
    newline. *)
Definition whole_lines (s : str) : Prop := s = [] ∨ ∃ a, s = a ++ [LF].

(** A header holds a line when [readlines] returns it, with its newline
    or, at the end of the text, without. *)
Definition has_line (text line : str) : Prop :=
  line ∈ readlines text ∨ line ++ [LF] ∈ readlines text.

(** ** The suffix of a name

    On a name made of word characters the search with [re_suffix] can be
    computed directly: it finds the last place, after the first
    character, where an underscore is followed by a marker and a kind. *)

(** The four kinds, in the order of the alternation. *)
Definition kinds : list str := [u "NORM"; u "INT"; u "FLOAT"; u "RGB"].

(** The marker and kind right after an underscore at the head of [s]. *)
Definition suffix_at (s : str) : option str :=
  match s with
  | c0 :: c :: s' =>
      if (c0 =? 95) && U_bar_S c
      then (c ::.) <$> List.find (startswith s') kinds
      else None
  | _ => None
  end.

(** The last place of [s] where [suffix_at] answers. *)
Fixpoint rightmost (s : str) : option str :=
  match s with
  | [] => None
  | _ :: s' =>
      match rightmost s' with
      | Some t => Some t
      | None => suffix_at s
      end
  end.

(** [\w+] takes at least one character. *)
Definition derive_suffix (v : str) : option str :=
  match v with
  | [] => None
  | _ :: v' => rightmost v'
  end.

(** The groups of a match of [re_suffix] that found [t]. *)
Definition suffix_groups (t : str) : groups :=
  <[1%nat := t]> (<[2%nat := drop 1 t]> ∅).

(** What follows [\w+] in [re_suffix]. *)
Definition re_suffix_tail : regex :=
  cat [Chr 95;
       Group 1 (Seq (Cls U_bar_S)
                  (Group 2 (Alt (Lit (u "NORM")) (Alt (Lit (u "INT"))
                           (Alt (Lit (u "FLOAT")) (Lit (u "RGB")))))));
       Star is_word].

(** A token: a marker of the class and one of the four kinds. *)
Definition is_token (t : str) : Prop :=
  ∃ c k, t = c :: k ∧ U_bar_S c = true ∧ k ∈ kinds.

(** A place where the pattern can match: at least one character, an
    underscore, a token. *)
Definition candidate (v pre t post : str) : Prop :=
  v = pre ++ 95 :: t ++ post ∧ pre ≠ [] ∧ is_token t.

(** The seven suffixes. *)
Definition suffixes : list str :=
  [u "UNORM"; u "SNORM"; u "UINT"; u "SINT"; u "UFLOAT"; u "SFLOAT"; u "SRGB"].

(** ** What a run leaves behind *)

(** The text of a written file. *)
Definition table (columns : str) (formats : list Format) : str :=
  header ++ columns ++ (u "#ifdef _c" ++ [LF]) ++
  concat (format_line <$> formats) ++ (u "#endif" ++ [LF]).

(** The two lists the emitter writes. *)
Definition uncompressed_formats (formats : list Format) : list Format :=
  (partition compressed formats).1.

Definition compressed_formats (formats : list Format) : list Format :=
  List.filter (λ f, negb (startswith (magnum f) (u "Pvrtc2")))
    (partition compressed formats).2.

(** What the count check prints. *)
Definition warning (formats : list Format) : str :=
  if (length formats =? 135)%nat then []
  else u "Unexpected number of formats" ++ [LF].

(** The conditions under which the script stops on an [assert]. *)
Inductive fatal (vulkan_header format_header : str) : Prop :=
  | duplicate_symbol pre line post m T :
      (* a constant is defined again *)
      readlines vulkan_header = pre ++ line :: post →
      read_vulkan_formats pre ∅ = Ok T →
      re_search re_vk line = Some m →
      is_Some (T !! group m 1) →
      fatal vulkan_header format_header
  | undefined_constant T line m :
      (* a mapping line names a constant that was not defined *)
      read_vulkan_formats (readlines vulkan_header) ∅ = Ok T →
      line ∈ readlines format_header →
      re_search re_fmt line = Some m →
      T !! group m 3 = None →
      fatal vulkan_header format_header
  | no_suffix line m :
      (* the suffix pattern finds nothing in the name *)
      line ∈ readlines format_header →
      re_search re_fmt line = Some m →
      re_search re_suffix (group m 3) = None →
      fatal vulkan_header format_header
  | urgb_suffix line m sm :
      (* the suffix found is URGB *)
      line ∈ readlines format_header →
      re_search re_fmt line = Some m →
      re_search re_suffix (group m 3) = Some sm →
      group sm 1 = u "URGB" →
      fatal vulkan_header format_header.

(** ** Example inputs

    In the examples the Unicode database classifies nothing beyond
    ASCII. *)

Definition no_unicode (c : char) : bool := false.

Definition example_vulkan_header : str :=
  u "typedef enum {" ++ [LF] ++
  u "  VK_FORMAT_R8_UNORM = 9," ++ [LF] ++
  u "  VK_FORMAT_BC1_RGBA_UNORM_BLOCK = 0133," ++ [LF] ++
  u "  VK_FORMAT_PVRTC2_2BPP_UNORM_BLOCK_IMG = 1000054004," ++ [LF] ++
  u "  VK_FORMAT_R32_SFLOAT = 100" ++ [LF] ++
  u "} VkFormat;" ++ [LF].

Definition example_format_header : str :=
  u "enum class PixelFormat: Int {" ++ [LF] ++
  u "  R8Unorm = VK_FORMAT_R8_UNORM," ++ [LF] ++
  u "  CompressedBc1RGBAUnorm = VK_FORMAT_BC1_RGBA_UNORM_BLOCK," ++ [LF] ++
  u "  CompressedPvrtc2RGBA2bppUnorm = VK_FORMAT_PVRTC2_2BPP_UNORM_BLOCK_IMG," ++ [LF] ++
  u "  R32F = VK_FORMAT_R32_SFLOAT" ++ [LF] ++
  u "};" ++ [LF].

(** A second header with 135 mapping lines. *)
Definition example_135_header : str :=
  concat (replicate 135 (u "  R8Unorm = VK_FORMAT_R8_UNORM," ++ [LF])).

(** The dictionary and the records the script builds from them. *)
Definition example_vulkan_formats : gmap (list N) (list N) :=
  list_to_map
    [ (u "R8_UNORM", u "9");
      (u "BC1_RGBA_UNORM_BLOCK", u "0133");
      (u "PVRTC2_2BPP_UNORM_BLOCK_IMG", u "1000054004");
      (u "R32_SFLOAT", u "100") ].

Definition example_formats : list Format :=
  [ mkFormat false (u "R8Unorm") (u "R8_UNORM") (u "9") (u "UNORM");
    mkFormat true (u "Bc1RGBAUnorm") (u "BC1_RGBA_UNORM_BLOCK") (u "0133")
      (u "UNORM");
    mkFormat true (u "Pvrtc2RGBA2bppUnorm") (u "PVRTC2_2BPP_UNORM_BLOCK_IMG")
      (u "1000054004") (u "UNORM");
    mkFormat false (u "R32F") (u "R32_SFLOAT") (u "100") (u "SFLOAT") ].

(** A world in which an earlier run left something behind, and an empty
    one. *)
Definition stale_world : World :=
  mkWorld (u "earlier output" ++ [LF])
    {[ "formatMapping.hpp" := u "stale" ]}.

Definition empty_world : World := mkWorld [] ∅.

(** ** Notions of the further properties *)

(** The first character of [b], if any, is not in the class. *)
Definition stops (p : char → bool) (b : str) : Prop :=
  match b with
  | [] => True
  | c :: _ => p c = false
  end.

(** In the Unicode database no alphanumeric character is white space. *)
Definition alnum_not_space : Prop :=
  ∀ c, uni_alnum c = true → uni_space c = false.

(** The qualifier is taken off an identifier that starts with it and goes
    on after it. *)
Definition qualified (id : str) : bool :=
  startswith id (u "Compressed") && (10 <? length id)%nat.

Definition target_name (id : str) : str :=
  if qualified id then drop 10 id else id.

(** The groups of a match of [re_fmt] on the identifier [id] and the
    constant [v]. *)
Definition fmt_groups (id v : str) : groups :=
  if qualified id
  then <[3%nat := v]> (<[2%nat := drop 10 id]> (<[1%nat := u "Compressed"]> ∅))
  else <[3%nat := v]> (<[2%nat := id]> ∅).

(** What follows the optional qualifier in [re_fmt]. *)
Definition re_fmt_tail : regex :=
  cat [Group 2 (Plus is_word); Lit (u " = VK_FORMAT_");
       Group 3 (Plus is_word); Opt (Chr 44); Eol].

(** The symbol and value a line of the first header defines, if any. *)
Definition vk_entry (line : str) : option (list N * list N) :=
  match re_search re_vk line with
  | Some m => Some (group m 1, group m 2)
  | None => None
  end.

Definition vk_entries (lines : list str) : list (list N * list N) :=
  omap vk_entry lines.

(** The fields of a record the script builds: names of word characters,
    a value of digits, one of the seven suffixes; none is empty. *)
Definition well_formed (f : Format) : Prop :=
  magnum f ≠ [] ∧ Forall (λ c, is_word c = true) (magnum f) ∧
  vulkan_name f ≠ [] ∧ Forall (λ c, is_word c = true) (vulkan_name f) ∧
  vulkan f ≠ [] ∧ Forall (λ c, is_digit c = true) (vulkan f) ∧
  suffix f ∈ suffixes.

(** The line of a record without its newline. *)
Definition line_body (f : Format) : str :=
  u "_c(" ++ vulkan f ++ u ", " ++ magnum f ++ u ", " ++ suffix f ++
  u ") /* VK_FORMAT_" ++ vulkan_name f ++ u " */".

(** A text with every newline written as carriage return, newline. *)
Definition to_crlf (s : str) : str :=
  s ≫= (λ c, if c =? LF then [CR; LF] else [c]).

(** The compressed records that are written to neither file. *)
Definition dropped_formats (formats : list Format) : list Format :=
  List.filter (λ f, startswith (magnum f) (u "Pvrtc2"))
    (List.filter compressed formats).

(** * Properties *)

(** ** What a match consumed *)

Lemma star_cls_sound (p : char → bool) (k : cont) pos s g m :
  star_cls p k pos s g = Some m →
  ∃ a b, s = a ++ b ∧ Forall (λ c, p c = true) a ∧
         k (pos + length a)%nat b g = Some m.
Proof.
  revert pos. induction s as [|c s IH]; intros pos H; simpl in H.
  - exists [], []. rewrite Nat.add_0_r. auto.
  - destruct (p c) eqn:Hc.
    + destruct (star_cls p k (S pos) s g) eqn:Hs.
      * injection H as ->. destruct (IH _ Hs) as (a & b & -> & Ha & Hk).
        exists (c :: a), b. repeat split; auto.
        simpl. by rewrite Nat.add_succ_r.
      * exists [], (c :: s). rewrite Nat.add_0_r. auto.
    + exists [], (c :: s). rewrite Nat.add_0_r. auto.
Qed.

(** Whatever the matcher answers is a parse, continued by [k]. *)
Lemma rmatch_sound r : ∀ (k : cont) pos s g m,
  rmatch r k pos s g = Some m →
  ∃ a b g', s = a ++ b ∧ matches r pos a b g g' ∧
            k (pos + length a)%nat b g' = Some m.
Proof.
  induction r as [|c|p| | |r1 IH1 r2 IH2|r1 IH1 r2 IH2|r IH|p|p|n r IH];
    intros k pos s g m H; simpl in H.
  - exists [], s, g. rewrite Nat.add_0_r. repeat split; auto. constructor.
  - destruct s as [|c' s]; [done|]. destruct (N.eqb_spec c' c); [subst|done].
    exists [c], s, g. rewrite Nat.add_1_r. repeat split; auto. constructor.
  - destruct s as [|c' s]; [done|]. destruct (p c') eqn:Hp; [|done].
    exists [c'], s, g. rewrite Nat.add_1_r. repeat split; auto. by constructor.
  - destruct (Nat.eqb_spec pos 0); [subst|done].
    exists [], s, g. repeat split; auto. constructor.
  - destruct (at_end s) eqn:He; [|done].
    exists [], s, g. rewrite Nat.add_0_r. repeat split; auto. by constructor.
  - destruct (IH1 _ _ _ _ _ H) as (a1 & b1 & g1 & -> & H1 & H').
    destruct (IH2 _ _ _ _ _ H') as (a2 & b & g2 & -> & H2 & Hk).
    exists (a1 ++ a2), b, g2. rewrite <- app_assoc, length_app, Nat.add_assoc.
    repeat split; auto. by econstructor.
  - destruct (rmatch r1 k pos s g) eqn:H1.
    + injection H as ->. destruct (IH1 _ _ _ _ _ H1) as (a & b & g' & ? & ? & ?).
      exists a, b, g'. repeat split; auto. by apply m_alt_l.
    + destruct (IH2 _ _ _ _ _ H) as (a & b & g' & ? & ? & ?).
      exists a, b, g'. repeat split; auto. by apply m_alt_r.
  - destruct (rmatch r k pos s g) eqn:H1.
    + injection H as ->. destruct (IH _ _ _ _ _ H1) as (a & b & g' & ? & ? & ?).
      exists a, b, g'. repeat split; auto. by apply m_opt_some.
    + exists [], s, g. rewrite Nat.add_0_r. repeat split; auto. apply m_opt_none.
  - destruct (star_cls_sound _ _ _ _ _ _ H) as (a & b & ? & ? & ?).
    exists a, b, g. repeat split; auto. by constructor.
  - destruct s as [|c' s]; [done|]. destruct (p c') eqn:Hp; [|done].
    destruct (star_cls_sound _ _ _ _ _ _ H) as (a & b & -> & ? & Hk).
    exists (c' :: a), b, g. simpl. rewrite Nat.add_succ_r. repeat split; auto.
    constructor; [done|]. by constructor.
  - destruct (IH _ _ _ _ _ H) as (a & b & g' & -> & Hm & Hk).
    replace (pos + length a - pos)%nat with (length a) in Hk by lia.
    rewrite take_app_length in Hk.
    exists a, b, (<[n := a]> g'). repeat split; auto. by constructor.
Qed.

(** A successful search is a parse at some start position. *)
Lemma search_from_sound r : ∀ pos s m,
  search_from r pos s = Some m →
  ∃ pre a b, s = pre ++ a ++ b ∧ matches r (pos + length pre) a b ∅ m.
Proof.
  intros pos s. revert pos. induction s as [|c s IH]; intros pos m H; simpl in H.
  - destruct (rmatch r _ pos [] ∅) eqn:H1; [|done]. injection H as ->.
    destruct (rmatch_sound _ _ _ _ _ _ H1) as (a & b & g' & ? & ? & [= ->]).
    exists [], a, b. rewrite Nat.add_0_r. auto.
  - destruct (rmatch r _ pos (c :: s) ∅) eqn:H1.
    + injection H as ->.
      destruct (rmatch_sound _ _ _ _ _ _ H1) as (a & b & g' & ? & ? & [= ->]).
      exists [], a, b. rewrite Nat.add_0_r. auto.
    + destruct (IH _ _ H) as (pre & a & b & -> & Hm).
      exists (c :: pre), a, b. simpl. rewrite Nat.add_succ_r. auto.
Qed.

(** Inversion of [matches], one lemma per construct. *)

Lemma matches_eps_inv pos a b g g' :
  matches Eps pos a b g g' → a = [] ∧ g' = g.
Proof. by inversion 1. Qed.

Lemma matches_chr_inv c pos a b g g' :
  matches (Chr c) pos a b g g' → a = [c] ∧ g' = g.
Proof. by inversion 1. Qed.

Lemma matches_cls_inv (p : char → bool) pos a b g g' :
  matches (Cls p) pos a b g g' → ∃ c, a = [c] ∧ p c = true ∧ g' = g.
Proof. inversion 1; eauto. Qed.

Lemma matches_bol_inv pos a b g g' :
  matches Bol pos a b g g' → pos = 0%nat ∧ a = [] ∧ g' = g.
Proof. by inversion 1. Qed.

Lemma matches_eol_inv pos a b g g' :
  matches Eol pos a b g g' → a = [] ∧ (b = [] ∨ b = [LF]) ∧ g' = g.
Proof.
  inversion 1 as [| | | |? ? ? He| | | | | | | |]; subst.
  repeat split; auto.
  destruct b as [|c [|? ?]]; simpl in He; try done; auto.
  apply N.eqb_eq in He as ->. auto.
Qed.

Lemma matches_seq_inv r1 r2 pos a b g g2 :
  matches (Seq r1 r2) pos a b g g2 →
  ∃ a1 a2 g1, a = a1 ++ a2 ∧ matches r1 pos a1 (a2 ++ b) g g1 ∧
              matches r2 (pos + length a1) a2 b g1 g2.
Proof. inversion 1; subst; eauto 10. Qed.

Lemma matches_alt_inv r1 r2 pos a b g g' :
  matches (Alt r1 r2) pos a b g g' →
  matches r1 pos a b g g' ∨ matches r2 pos a b g g'.
Proof. inversion 1; subst; auto. Qed.

Lemma matches_opt_inv r pos a b g g' :
  matches (Opt r) pos a b g g' →
  matches r pos a b g g' ∨ (a = [] ∧ g' = g).
Proof. inversion 1; subst; auto. Qed.

Lemma matches_star_inv (p : char → bool) pos a b g g' :
  matches (Star p) pos a b g g' → Forall (λ c, p c = true) a ∧ g' = g.
Proof. inversion 1; subst; auto. Qed.

Lemma matches_plus_inv (p : char → bool) pos a b g g' :
  matches (Plus p) pos a b g g' →
  a ≠ [] ∧ Forall (λ c, p c = true) a ∧ g' = g.
Proof. inversion 1; subst; auto. Qed.

Lemma matches_group_inv n r pos a b g g' :
  matches (Group n r) pos a b g g' →
  ∃ g1, matches r pos a b g g1 ∧ g' = <[n := a]> g1.
Proof. inversion 1; subst; eauto. Qed.

Lemma matches_Lit w : ∀ pos a b g g',
  matches (Lit w) pos a b g g' → a = w ∧ g' = g.
Proof.
  unfold Lit, cat. induction w as [|c w IH]; intros pos a b g g' H.
  - by apply matches_eps_inv in H.
  - apply matches_seq_inv in H as (a1 & a2 & g1 & -> & H1 & H2).
    apply matches_chr_inv in H1 as [-> ->].
    by apply IH in H2 as [-> ->].
Qed.

Ltac inv_matches :=
  repeat match goal with
  | H : matches (Lit _) _ _ _ _ _ |- _ =>
      apply matches_Lit in H as [-> ->]
  | H : matches (Seq _ _) _ _ _ _ _ |- _ =>
      apply matches_seq_inv in H as (? & ? & ? & -> & ? & ?)
  | H : matches (Alt _ _) _ _ _ _ _ |- _ =>
      apply matches_alt_inv in H as [?|?]
  | H : matches (Opt _) _ _ _ _ _ |- _ =>
      apply matches_opt_inv in H as [?|[-> ->]]
  | H : matches (Group _ _) _ _ _ _ _ |- _ =>
      apply matches_group_inv in H as (? & ? & ->)
  | H : matches (Plus _) _ _ _ _ _ |- _ =>
      apply matches_plus_inv in H as (? & ? & ->)
  | H : matches (Star _) _ _ _ _ _ |- _ =>
      apply matches_star_inv in H as (? & ->)
  | H : matches (Chr _) _ _ _ _ _ |- _ =>
      apply matches_chr_inv in H as [-> ->]
  | H : matches (Cls _) _ _ _ _ _ |- _ =>
      apply matches_cls_inv in H as (? & -> & ? & ->)
  | H : matches Eps _ _ _ _ _ |- _ =>
      apply matches_eps_inv in H as [-> ->]
  | H : matches Eol _ _ _ _ _ |- _ =>
      rewrite ?app_nil_l in H;
      apply matches_eol_inv in H as (-> & [-> | ->] & ->)
  end.

(** A line that [re_vk] matches, and the two groups it captures. *)
Lemma re_vk_shape line m :
  re_search re_vk line = Some m →
  ∃ ws k v tl,
    line = ws ++ u "VK_FORMAT_" ++ k ++ u " = " ++ v ++ tl ∧
    ws ≠ [] ∧ Forall (λ c, is_space c = true) ws ∧
    k ≠ [] ∧ Forall (λ c, is_word c = true) k ∧
    v ≠ [] ∧ Forall (λ c, is_digit c = true) v ∧
    tl ∈ line_ends ∧
    m = <[2%nat := v]> (<[1%nat := k]> ∅).
Proof.
  intros H. apply search_from_sound in H as (pre & a & b & -> & H).
  unfold re_vk, cat in H. cbn [foldr] in H.
  apply matches_seq_inv in H as (a1 & a2 & g1 & -> & H1 & H2).
  apply matches_bol_inv in H1 as (Hz & -> & ->).
  destruct pre; [|done]. clear Hz.
  inv_matches.
  all: rewrite ?app_nil_l, <- ?app_assoc.
  all: eexists _, _, _, _; split; [reflexivity|].
  all: repeat split; auto.
  all: cbn [app]; unfold line_ends; set_solver.
Qed.

(** A line that [re_fmt] matches, and the groups it captures: the first
    one only when the name starts with the qualifier. *)
Lemma re_fmt_shape line m :
  re_search re_fmt line = Some m →
  ∃ ws q name v tl,
    line = ws ++ q ++ name ++ u " = VK_FORMAT_" ++ v ++ tl ∧
    ws ≠ [] ∧ Forall (λ c, is_space c = true) ws ∧
    (q = u "Compressed" ∧ m !! 1%nat = Some q ∨ q = [] ∧ m !! 1%nat = None) ∧
    name ≠ [] ∧ Forall (λ c, is_word c = true) name ∧
    v ≠ [] ∧ Forall (λ c, is_word c = true) v ∧
    tl ∈ line_ends ∧
    m !! 2%nat = Some name ∧ m !! 3%nat = Some v.
Proof.
  intros H. apply search_from_sound in H as (pre & a & b & -> & H).
  unfold re_fmt, cat in H. cbn [foldr] in H.
  apply matches_seq_inv in H as (a1 & a2 & g1 & -> & H1 & H2).
  apply matches_bol_inv in H1 as (Hz & -> & ->).
  destruct pre; [|done]. clear Hz.
  inv_matches.
  all: rewrite ?app_nil_l, <- ?app_assoc.
  all: match goal with
       | |- ∃ _ _ _ _ _, ?x ++ u "Compressed" ++ ?n ++ _ ++ ?v ++ ?tl = _ ∧ _ =>
           exists x, (u "Compressed"), n, v, tl
       | |- ∃ _ _ _ _ _, ?x ++ ?n ++ _ ++ ?v ++ ?tl = _ ∧ _ =>
           exists x, [], n, v, tl
       end; split; [reflexivity|].
  all: repeat split; auto.
  all: try (cbn [app]; unfold line_ends; set_solver).
  all: try (left; split; [done|]).
  all: try by simplify_map_eq.
Qed.

(** The name a mapping line refers to is made of word characters. *)
Lemma fmt_name_word line m :
  re_search re_fmt line = Some m →
  group m 3 ≠ [] ∧ Forall (λ c, is_word c = true) (group m 3).
Proof.
  intros Hm.
  destruct (re_fmt_shape _ _ Hm) as
    (ws & q & name & v & tl & _ & _ & _ & _ & _ & _ & Hne & Hv & _ & _ & H3).
  unfold group. by rewrite H3.
Qed.

(** ** The suffix pattern, computed

    On a name made of word characters the search with [re_suffix] can be
    computed directly: it is the last place, after the first character,
    where an underscore is followed by a marker and a kind. *)

Lemma rmatch_Lit w : ∀ (k : cont) pos s g,
  rmatch (Lit w) k pos s g =
  if startswith s w then k (pos + length w)%nat (drop (length w) s) g else None.
Proof.
  induction w as [|c w IH]; intros k pos s g.
  - simpl. by rewrite Nat.add_0_r.
  - change (Lit (c :: w)) with (Seq (Chr c) (Lit w)).
    destruct s as [|c' s]; [done|]. cbn [rmatch startswith].
    destruct (c' =? c); [|done]. rewrite IH. cbn [andb length drop].
    by rewrite Nat.add_succ_r.
Qed.

Lemma startswith_take w : ∀ s, startswith s w = true → take (length w) s = w.
Proof.
  induction w as [|a w IH]; intros [|c s]; simpl; try done.
  destruct (N.eqb_spec c a) as [->|]; [|done].
  intros Hw. f_equal. by apply IH.
Qed.

Lemma startswith_app w post : startswith (w ++ post) w = true.
Proof. induction w as [|c w IH]; simpl; [done|]. by rewrite N.eqb_refl. Qed.

Lemma star_cls_final (p : char → bool) pos s g :
  star_cls p (λ _ _ g', Some g') pos s g = Some g.
Proof.
  revert pos. induction s as [|c s IH]; intros pos; simpl; [done|].
  rewrite IH. by destruct (p c).
Qed.

Lemma re_suffix_tail_eq pos s g :
  rmatch re_suffix_tail (λ _ _ g', Some g') pos s g =
  (λ t, <[1%nat := t]> (<[2%nat := drop 1 t]> g)) <$> suffix_at s.
Proof.
  unfold re_suffix_tail, cat, suffix_at. cbn [foldr rmatch].
  destruct s as [|c0 [|c s]]; [done| |].
  { by destruct (c0 =? 95). }
  destruct (c0 =? 95); [|done]. destruct (U_bar_S c); [|done].
  cbn [andb kinds List.find]. rewrite !rmatch_Lit.
  repeat match goal with
  | |- context [startswith s ?w] =>
      destruct (startswith s w) eqn:?; [
        replace (S (S pos) + length w - S (S pos))%nat with (length w) by lia;
        replace (S (S pos) + length w - S pos)%nat with (S (length w)) by lia;
        rewrite star_cls_final; cbn [fmap option_fmap option_map take drop];
        rewrite startswith_take by done; rewrite drop_0; reflexivity |]
  end.
  done.
Qed.

Lemma star_word_tail s : ∀ pos g,
  Forall (λ c, is_word c = true) s →
  star_cls is_word (rmatch re_suffix_tail (λ _ _ g', Some g')) pos s g =
  (λ t, <[1%nat := t]> (<[2%nat := drop 1 t]> g)) <$> rightmost s.
Proof.
  induction s as [|c s IH]; intros pos g Hs.
  - cbn [star_cls rightmost]. by rewrite re_suffix_tail_eq.
  - inversion_clear Hs as [|? ? Hc Hs']. cbn [star_cls rightmost].
    rewrite Hc, IH by done.
    destruct (rightmost s); [done|]. cbn [fmap option_fmap option_map].
    by rewrite re_suffix_tail_eq.
Qed.

Lemma rmatch_re_suffix v pos :
  Forall (λ c, is_word c = true) v →
  rmatch re_suffix (λ _ _ g', Some g') pos v ∅ =
  suffix_groups <$> derive_suffix v.
Proof.
  intros Hv. change re_suffix with (Seq (Plus is_word) re_suffix_tail).
  cbn [rmatch]. destruct v as [|c v]; [done|].
  inversion_clear Hv as [|? ? Hc Hv']. rewrite Hc.
  by rewrite star_word_tail.
Qed.

Lemma rightmost_tail_None c s : rightmost (c :: s) = None → rightmost s = None.
Proof. simpl. by destruct (rightmost s). Qed.

(** [re.search] with [re_suffix], on a name made of word characters. *)
Lemma search_re_suffix v :
  Forall (λ c, is_word c = true) v →
  re_search re_suffix v = suffix_groups <$> derive_suffix v.
Proof.
  unfold re_search. generalize 0%nat as pos.
  induction v as [|c v IH]; intros pos Hv.
  - cbn [search_from]. by rewrite rmatch_re_suffix.
  - cbn [search_from]. rewrite rmatch_re_suffix by done.
    destruct (derive_suffix (c :: v)) as [t|] eqn:Hd; [done|].
    inversion_clear Hv as [|? ? Hc Hv']. rewrite IH by done.
    destruct v as [|c' v]; [done|].
    simpl in Hd. apply rightmost_tail_None in Hd. simpl. by rewrite Hd.
Qed.

Lemma group_suffix_groups t : group (suffix_groups t) 1 = t.
Proof. unfold group, suffix_groups. by rewrite lookup_insert_eq. Qed.

(** What the search answers on such a name is the derived suffix. *)
Lemma search_re_suffix_group v :
  Forall (λ c, is_word c = true) v →
  (λ sm, group sm 1) <$> re_search re_suffix v = derive_suffix v.
Proof.
  intros Hv. rewrite search_re_suffix by done.
  destruct (derive_suffix v); [|done]. cbn. by rewrite group_suffix_groups.
Qed.

(** *** The derivation, declaratively *)

Lemma suffix_at_Some s t :
  suffix_at s = Some t → ∃ post, s = 95 :: t ++ post ∧ is_token t.
Proof.
  unfold suffix_at. destruct s as [|c0 [|c s]]; try done.
  destruct (N.eqb_spec c0 95) as [->|]; [|done].
  destruct (U_bar_S c) eqn:Hc; [|done]. cbn [andb].
  destruct (List.find (startswith s) kinds) as [k|] eqn:Hk; [|done].
  intros [= <-]. apply find_some in Hk as [Hin Hk].
  exists (drop (length k) s). split.
  - cbn [app]. do 2 f_equal.
    rewrite <- (take_drop (length k) s) at 1.
    by rewrite (startswith_take _ _ Hk).
  - exists c, k. repeat split; auto. by apply list_elem_of_In.
Qed.

Lemma suffix_at_token t post : is_token t → suffix_at (95 :: t ++ post) = Some t.
Proof.
  intros (c & k & -> & Hc & Hk). unfold suffix_at. cbn [app].
  rewrite N.eqb_refl, Hc. cbn [andb].
  unfold kinds in Hk. set_unfold in Hk.
  destruct Hk as [->|[->|[->|[->|[]]]]]; done.
Qed.

Lemma suffix_at_None s t post : suffix_at s = None → s = 95 :: t ++ post → is_token t → False.
Proof. intros Hn -> Ht. by rewrite suffix_at_token in Hn. Qed.

Lemma rightmost_None s :
  rightmost s = None →
  ∀ pre t post, s = pre ++ 95 :: t ++ post → is_token t → False.
Proof.
  induction s as [|c s IH]; intros Hn pre t post Hs Ht.
  - by destruct pre.
  - cbn [rightmost] in Hn. destruct (rightmost s) eqn:Hr; [done|].
    destruct pre as [|c' pre].
    + by apply (suffix_at_None _ t post Hn).
    + injection Hs as -> Hs. eapply IH; eauto.
Qed.

Lemma rightmost_Some s t :
  rightmost s = Some t →
  ∃ pre post, s = pre ++ 95 :: t ++ post ∧ is_token t ∧
    ∀ pre' t' post', s = pre' ++ 95 :: t' ++ post' → is_token t' →
                     (length pre' ≤ length pre)%nat.
Proof.
  revert t. induction s as [|c s IH]; intros t Hr; [done|].
  cbn [rightmost] in Hr. destruct (rightmost s) as [t0|] eqn:Hs.
  - injection Hr as ->. destruct (IH _ eq_refl) as (pre & post & -> & Ht & Hmax).
    exists (c :: pre), post. repeat split; auto.
    intros [|c' pre'] t' post' Heq Ht'; simpl; [lia|].
    injection Heq as -> Heq. apply Hmax in Heq; auto. lia.
  - apply suffix_at_Some in Hr as (post & Heq & Ht).
    exists [], post. repeat split; auto.
    intros [|c' pre'] t' post' Heq' Ht'; simpl; [lia|].
    injection Heq' as -> Heq'.
    exfalso. by apply (rightmost_None _ Hs pre' t' post').
Qed.

Lemma derive_suffix_None v :
  derive_suffix v = None → ∀ pre t post, ¬ candidate v pre t post.
Proof.
  intros Hd pre t post (-> & Hpre & Ht). destruct pre as [|c pre]; [done|].
  cbn [derive_suffix] in Hd. by apply (rightmost_None _ Hd pre t post).
Qed.

Lemma derive_suffix_Some v t :
  derive_suffix v = Some t →
  ∃ pre post, candidate v pre t post ∧
    ∀ pre' t' post', candidate v pre' t' post' → (length pre' ≤ length pre)%nat.
Proof.
  destruct v as [|c v]; [done|]. cbn [derive_suffix]. intros Hr.
  apply rightmost_Some in Hr as (pre & post & -> & Ht & Hmax).
  exists (c :: pre), post. split; [done|].
  intros [|c' pre'] t' post' (Heq & Hne & Ht'); [done|].
  injection Heq as -> Heq. apply Hmax in Heq; auto. simpl. lia.
Qed.

(** The last candidate is the one derived. *)
Lemma derive_suffix_last v pre t post :
  candidate v pre t post →
  (∀ pre' t' post', candidate v pre' t' post' → (length pre' ≤ length pre)%nat) →
  derive_suffix v = Some t.
Proof.
  intros Hc Hmax. destruct (derive_suffix v) as [t0|] eqn:Hd.
  - apply derive_suffix_Some in Hd as (pre0 & post0 & Hc0 & Hmax0).
    assert (length pre0 = length pre) as Hlen.
    { apply Nat.le_antisymm; [by eapply Hmax | by eapply Hmax0]. }
    destruct Hc as (Hv & _ & Ht), Hc0 as (Hv0 & _ & Ht0).
    rewrite Hv in Hv0. apply app_inj_1 in Hv0 as [_ Heq]; [|done].
    apply (f_equal suffix_at) in Heq.
    rewrite !suffix_at_token in Heq by done. congruence.
  - exfalso. by eapply derive_suffix_None.
Qed.

(** A candidate after which [rightmost] finds nothing is the last one. *)
Lemma no_later_candidate v pre t post :
  v = pre ++ 95 :: t ++ post → rightmost (t ++ post) = None →
  ∀ pre' t' post', candidate v pre' t' post' → (length pre' ≤ length pre)%nat.
Proof.
  intros Hv Hr pre' t' post' (Hv' & _ & Ht').
  destruct (decide (length pre' ≤ length pre)%nat) as [|Hgt]; [done|].
  exfalso. rewrite Hv in Hv'.
  apply app_eq_inv in Hv' as [(x & -> & Hx)|(x & -> & Hx)].
  - rewrite length_app in Hgt. lia.
  - destruct x as [|c x]; [rewrite app_nil_r in Hgt; lia|].
    injection Hx as _ Hx.
    by apply (rightmost_None _ Hr x t' post').
Qed.

Lemma token_length t : is_token t → (4 ≤ length t)%nat.
Proof.
  intros (c & k & -> & _ & Hk). unfold kinds in Hk. set_unfold in Hk.
  destruct Hk as [->|[->|[->|[->|[]]]]]; vm_compute; lia.
Qed.

(** A candidate at the very end of the name is the last one. *)
Lemma candidate_at_end v pre t :
  candidate v pre t [] → length t = 4%nat →
  ∀ pre' t' post', candidate v pre' t' post' → (length pre' ≤ length pre)%nat.
Proof.
  intros (Hv & _ & _) Hlen pre' t' post' (Hv' & _ & Ht').
  apply token_length in Ht'. apply (f_equal length) in Hv, Hv'.
  rewrite Hv in Hv'. rewrite !length_app, !length_cons, !length_app in Hv'.
  cbn [length] in Hv'. lia.
Qed.

(** In a name made of word characters the marker of a token is [U] or [S]:
    the bar of the class is not a word character. *)
Lemma token_in_word_name v pre t post :
  Forall (λ c, is_word c = true) v → candidate v pre t post →
  ∃ c k, t = c :: k ∧ (c = 85 ∨ c = 83) ∧ k ∈ kinds.
Proof.
  intros Hv (-> & _ & c & k & -> & Hc & Hk).
  exists c, k. repeat split; auto.
  apply Forall_app in Hv as [_ Hv].
  apply Forall_cons in Hv as [_ Hv]. apply Forall_cons in Hv as [Hw _].
  unfold U_bar_S in Hc.
  destruct (N.eqb_spec c 85); [by left|].
  destruct (N.eqb_spec c 83); [by right|].
  destruct (N.eqb_spec c 124) as [->|]; [|done].
  by vm_compute in Hw.
Qed.

(** ** The two loops *)

Lemma assert_Ok b : assert b = Ok () ↔ b = true.
Proof. by destruct b. Qed.

Lemma exn_unique (e : exn) : e = AssertionError.
Proof. by destruct e. Qed.

(** One step of the first loop. *)
Lemma read_vulkan_formats_cons line lines T :
  read_vulkan_formats (line :: lines) T =
  match re_search re_vk line with
  | Some m =>
      if mem (group m 1) T then Raise AssertionError
      else read_vulkan_formats lines (<[group m 1 := group m 2]> T)
  | None => read_vulkan_formats lines T
  end.
Proof.
  cbn [read_vulkan_formats]. destruct (re_search re_vk line); [|done].
  by destruct (mem _ T).
Qed.

Lemma mem_true (k : list N) (d : gmap (list N) (list N)) : mem k d = true ↔ is_Some (d !! k).
Proof. unfold mem. apply bool_decide_eq_true. Qed.

Lemma mem_false (k : list N) (d : gmap (list N) (list N)) : mem k d = false ↔ d !! k = None.
Proof.
  unfold mem. rewrite bool_decide_eq_false, <- eq_None_not_Some. done.
Qed.

(** The loop over a text cut in two. *)
Lemma read_vulkan_formats_app l1 l2 T :
  read_vulkan_formats (l1 ++ l2) T =
  res_bind (read_vulkan_formats l2) (read_vulkan_formats l1 T).
Proof.
  revert T. induction l1 as [|line l1 IH]; intros T; [done|].
  rewrite <- app_comm_cons, !read_vulkan_formats_cons.
  destruct (re_search re_vk line); [|done].
  by destruct (mem _ T).
Qed.

(** The dictionary only grows, and every entry comes from a line. *)
Lemma read_vulkan_formats_Ok lines : ∀ T0 T,
  read_vulkan_formats lines T0 = Ok T →
  T0 ⊆ T ∧
  (∀ line m, line ∈ lines → re_search re_vk line = Some m →
             T !! group m 1 = Some (group m 2)) ∧
  (∀ k v, T !! k = Some v →
          T0 !! k = Some v ∨
          ∃ line m, line ∈ lines ∧ re_search re_vk line = Some m ∧
                    group m 1 = k ∧ group m 2 = v).
Proof.
  induction lines as [|line lines IH]; intros T0 T H.
  - injection H as ->. split; [done|]. split; [|by auto].
    intros ? ? Hin. by apply elem_of_nil in Hin.
  - rewrite read_vulkan_formats_cons in H.
    destruct (re_search re_vk line) as [m|] eqn:Hm.
    + destruct (mem (group m 1) T0) eqn:Hmem; [done|].
      apply mem_false in Hmem.
      destruct (IH _ _ H) as (Hsub & Hall & Hfrom).
      assert (T0 ⊆ T) as Hsub0.
      { etrans; [|exact Hsub]. by apply insert_subseteq. }
      split; [done|]. split.
      * intros line' m' [->|Hin]%elem_of_cons Hm'.
        -- rewrite Hm in Hm'. injection Hm' as <-.
           eapply lookup_weaken; [|exact Hsub]. by rewrite lookup_insert_eq.
        -- by eapply Hall.
      * intros k v Hkv. destruct (Hfrom _ _ Hkv) as [Hins|(l & m' & ? & ? & ? & ?)].
        -- destruct (decide (group m 1 = k)) as [<-|Hne].
           ++ rewrite lookup_insert_eq in Hins. injection Hins as <-.
              right. exists line, m. repeat split; auto. by left.
           ++ rewrite lookup_insert_ne in Hins by done. by left.
        -- right. exists l, m'. repeat split; auto. by right.
    + destruct (IH _ _ H) as (Hsub & Hall & Hfrom).
      split; [done|]. split.
      * intros line' m' [->|Hin]%elem_of_cons Hm'; [congruence|].
        by eapply Hall.
      * intros k v Hkv. destruct (Hfrom _ _ Hkv) as [?|(l & m' & ? & ? & ? & ?)].
        -- by left.
        -- right. exists l, m'. repeat split; auto. by right.
Qed.

(** The body of the second loop, when it does not raise. *)
Lemma read_format_Ok T m f :
  read_format T m = Ok f →
  compressed f = bool_decide (is_Some (m !! 1%nat)) ∧
  magnum f = group m 2 ∧
  vulkan_name f = group m 3 ∧
  T !! vulkan_name f = Some (vulkan f) ∧
  ∃ sm, re_search re_suffix (vulkan_name f) = Some sm ∧
        suffix f = group sm 1 ∧ suffix f ≠ u "URGB".
Proof.
  unfold read_format, mbind, res_mbind.
  destruct (mem (group m 3) T) eqn:Hmem; [|done]. cbn [assert res_bind].
  destruct (re_search re_suffix (group m 3)) as [sm|] eqn:Hs; [|done].
  destruct (str_eqb (group sm 1) (u "URGB")) eqn:Hu; [done|].
  cbn [negb assert res_bind]. intros [= <-].
  cbn [compressed magnum vulkan_name vulkan suffix]. repeat split.
  - apply mem_true in Hmem as [v Hv]. unfold getitem. by rewrite Hv.
  - exists sm. repeat split; auto. unfold str_eqb in Hu.
    by apply bool_decide_eq_false in Hu.
Qed.

(** The body of the second loop raises on each of its three asserts. *)
Lemma read_format_Raise T m :
  T !! group m 3 = None ∨
  re_search re_suffix (group m 3) = None ∨
  (∃ sm, re_search re_suffix (group m 3) = Some sm ∧ group sm 1 = u "URGB") →
  read_format T m = Raise AssertionError.
Proof.
  unfold read_format, mbind, res_mbind.
  destruct (mem (group m 3) T) eqn:Hmem; [|done]. cbn [assert res_bind].
  apply mem_true in Hmem as [v Hv].
  cbv zeta.
  intros [Hn|[Hn|(sm & Hs & Hu)]]; [congruence|by rewrite Hn|].
  rewrite Hs. unfold str_eqb. rewrite Hu.
  by case_bool_decide.
Qed.

(** One step of the second loop. *)
Lemma read_formats_cons T line lines acc :
  read_formats T (line :: lines) acc =
  match re_search re_fmt line with
  | Some m =>
      match read_format T m with
      | Ok f => read_formats T lines (acc ++ [f])
      | Raise e => Raise e
      end
  | None => read_formats T lines acc
  end.
Proof. done. Qed.

(** The records are those of the lines that matched, in the order of the
    lines, after the ones already there. *)
Lemma read_formats_Ok T lines : ∀ acc fs,
  read_formats T lines acc = Ok fs →
  ∃ new, fs = acc ++ new ∧
         Forall2 (λ m f, read_format T m = Ok f)
                 (omap (re_search re_fmt) lines) new.
Proof.
  induction lines as [|line lines IH]; intros acc fs H.
  - injection H as <-. exists []. by rewrite app_nil_r.
  - rewrite read_formats_cons in H. cbn [omap list_omap].
    destruct (re_search re_fmt line) as [m|]; [|by apply IH].
    destruct (read_format T m) as [f|] eqn:Hf; [|done].
    destruct (IH _ _ H) as (new & -> & Hall).
    exists (f :: new). rewrite <- app_assoc. split; [done|].
    by constructor.
Qed.

(** A line whose body raises stops the loop. *)
Lemma read_formats_Raise T lines line m e : ∀ acc,
  line ∈ lines → re_search re_fmt line = Some m →
  read_format T m = Raise e →
  read_formats T lines acc = Raise AssertionError.
Proof.
  intros acc Hin Hm Hr.
  destruct (read_formats T lines acc) as [fs|e'] eqn:H;
    [|by rewrite (exn_unique e')].
  exfalso. apply read_formats_Ok in H as (new & _ & Hall).
  assert (m ∈ omap (re_search re_fmt) lines) as Hmin.
  { apply list_elem_of_omap. eauto. }
  apply list_elem_of_lookup in Hmin as [i Hi].
  destruct (Forall2_lookup_l _ _ _ _ _ Hall Hi) as (f & _ & Hf). congruence.
Qed.

(** Every record comes from a line that matched, and every such line
    gives a record. *)
Lemma read_formats_elem T lines fs f :
  read_formats T lines [] = Ok fs → f ∈ fs →
  ∃ line m, line ∈ lines ∧ re_search re_fmt line = Some m ∧
            read_format T m = Ok f.
Proof.
  intros H Hf. apply read_formats_Ok in H as (new & -> & Hall).
  rewrite app_nil_l in Hf. apply list_elem_of_lookup in Hf as [i Hi].
  destruct (Forall2_lookup_r _ _ _ _ _ Hall Hi) as (m & Hm & Hok).
  apply list_elem_of_lookup_2, list_elem_of_omap in Hm as (line & ? & ?).
  eauto.
Qed.

Lemma read_formats_line T lines fs line m :
  read_formats T lines [] = Ok fs →
  line ∈ lines → re_search re_fmt line = Some m →
  ∃ f, f ∈ fs ∧ read_format T m = Ok f.
Proof.
  intros H Hin Hm. apply read_formats_Ok in H as (new & -> & Hall).
  assert (m ∈ omap (re_search re_fmt) lines) as Hmin.
  { apply list_elem_of_omap. eauto. }
  apply list_elem_of_lookup in Hmin as [i Hi].
  destruct (Forall2_lookup_l _ _ _ _ _ Hall Hi) as (f & Hf & Hok).
  exists f. split; [|done]. rewrite app_nil_l.
  by eapply list_elem_of_lookup_2.
Qed.

Lemma filter_sublist {A : Type} (p : A → bool) (l : list A) :
  sublist (List.filter p l) l.
Proof.
  induction l as [|x l IH]; simpl; [constructor|].
  destruct (p x); by constructor.
Qed.

Lemma elem_of_filter {A : Type} (p : A → bool) (l : list A) x :
  x ∈ List.filter p l ↔ x ∈ l ∧ p x = true.
Proof. rewrite !list_elem_of_In. apply filter_In. Qed.

(** ** The emitter *)

Lemma write_spec name s w old :
  files w !! name = Some old →
  write name s w = (Ok (), mkWorld (stdout w) (<[name := old ++ s]> (files w))).
Proof.
  intros Hold. unfold write. do 2 f_equal.
  apply map_eq. intros i. destruct (decide (name = i)) as [<-|Hne].
  - by rewrite lookup_alter_eq, lookup_insert_eq, Hold.
  - by rewrite lookup_alter_ne, lookup_insert_ne.
Qed.

Lemma for_each_write name (fs : list Format) : ∀ w old,
  files w !! name = Some old →
  for_each fs (λ format, write name (format_line format)) w =
  (Ok (), mkWorld (stdout w)
            (<[name := old ++ concat (format_line <$> fs)]> (files w))).
Proof.
  induction fs as [|f fs IH]; intros w old Hold.
  - cbn [for_each fmap list_fmap concat]. rewrite app_nil_r, insert_id by done.
    by destruct w.
  - cbn [for_each]. unfold mbind, M_mbind, M_bind.
    rewrite (write_spec _ _ _ _ Hold).
    rewrite (IH _ (old ++ format_line f)) by (cbn [files]; by rewrite lookup_insert_eq).
    cbn [stdout files fmap list_fmap concat].
    by rewrite insert_insert_eq, <- app_assoc.
Qed.

Lemma write_table_spec name columns fs w :
  write_table name columns fs w =
  (Ok (), mkWorld (stdout w) (<[name := table columns fs]> (files w))).
Proof.
  unfold write_table, mbind, M_mbind, M_bind. cbn [open_w].
  rewrite (write_spec _ _ _ []) by (cbn [files]; by rewrite lookup_insert_eq).
  rewrite (write_spec _ _ _ ([] ++ header)) by (cbn [files]; by rewrite lookup_insert_eq).
  rewrite (write_spec _ _ _ (([] ++ header) ++ columns))
    by (cbn [files]; by rewrite lookup_insert_eq).
  rewrite (for_each_write _ _ _ ((([] ++ header) ++ columns) ++ (u "#ifdef _c" ++ [LF])))
    by (cbn [files]; by rewrite lookup_insert_eq).
  erewrite write_spec by (cbn [files]; by rewrite lookup_insert_eq).
  cbn [stdout files]. rewrite !insert_insert_eq. unfold table.
  by rewrite app_nil_l, <- !app_assoc.
Qed.

(** The script as a whole: it raises where a loop raises, before any
    effect; otherwise it prints the warning if the count is off, and
    writes the two files. *)
Lemma main_spec vulkan_header format_header w :
  main vulkan_header format_header w =
  match read_vulkan_formats (readlines vulkan_header) ∅ with
  | Raise e => (Raise e, w)
  | Ok vulkan_formats =>
      match read_formats vulkan_formats (readlines format_header) [] with
      | Raise e => (Raise e, w)
      | Ok formats =>
          (Ok (),
           mkWorld (stdout w ++ warning formats)
             (<["compressedFormatMapping.hpp" :=
                  table (u "/* VkFormat, CompressedPixelFormat, Implementation::VkFormatSuffix */" ++ [LF])
                    (compressed_formats formats)]>
              (<["formatMapping.hpp" :=
                   table (u "/* VkFormat, PixelFormat, Implementation::VkFormatSuffix */" ++ [LF])
                     (uncompressed_formats formats)]>
               (files w))))
      end
  end.
Proof.
  unfold main, mbind, M_mbind, M_bind, lift.
  destruct (read_vulkan_formats _ ∅) as [T|e]; [|done].
  destruct (read_formats T _ []) as [fs|e]; [|done].
  unfold warning, uncompressed_formats, compressed_formats.
  destruct (partition compressed fs) as [l1 l2] eqn:Hp. cbn [fst snd].
  destruct (length fs =? 135)%nat; cbn [negb].
  - unfold mret, M_mret, M_ret. rewrite !write_table_spec. cbn [stdout files].
    by rewrite app_nil_r.
  - unfold print. rewrite !write_table_spec. by cbn [stdout files].
Qed.

(** A run stopped by a line of the second header. *)
Lemma main_Raise_format vulkan_header format_header w line m :
  line ∈ readlines format_header →
  re_search re_fmt line = Some m →
  (∀ T, read_vulkan_formats (readlines vulkan_header) ∅ = Ok T →
        read_format T m = Raise AssertionError) →
  main vulkan_header format_header w = (Raise AssertionError, w).
Proof.
  intros Hin Hm Hr. rewrite main_spec.
  destruct (read_vulkan_formats _ ∅) as [T|e]; [|by rewrite (exn_unique e)].
  by rewrite (read_formats_Raise _ _ _ _ _ _ Hin Hm (Hr _ eq_refl)).
Qed.

Lemma main_Raise_urgb vulkan_header format_header w line m sm :
  line ∈ readlines format_header →
  re_search re_fmt line = Some m →
  re_search re_suffix (group m 3) = Some sm →
  group sm 1 = u "URGB" →
  main vulkan_header format_header w = (Raise AssertionError, w).
Proof.
  intros Hin Hm Hs Hu. eapply main_Raise_format; eauto.
  intros T _. apply read_format_Raise. eauto.
Qed.

(** ** Lines of a text *)

Lemma split_lines_nonempty a : split_lines (a ++ [LF]) ≠ [].
Proof.
  induction a as [|c a IH]; [done|]. cbn [app split_lines].
  destruct (c =? LF); [done|]. by destruct (split_lines (a ++ [LF])).
Qed.

(** Cutting after a newline cuts the lines. *)
Lemma split_lines_app a b :
  split_lines ((a ++ [LF]) ++ b) = split_lines (a ++ [LF]) ++ split_lines b.
Proof.
  induction a as [|c a IH]; [done|]. cbn [app split_lines].
  destruct (c =? LF); [by rewrite IH|]. rewrite IH.
  pose proof (split_lines_nonempty a).
  by destruct (split_lines (a ++ [LF])).
Qed.

Lemma split_lines_line body :
  Forall (λ c, c ≠ LF) body → split_lines (body ++ [LF]) = [body ++ [LF]].
Proof.
  induction 1 as [|c body Hc _ IH]; [done|]. cbn [app split_lines].
  apply N.eqb_neq in Hc. by rewrite Hc, IH.
Qed.

Lemma whole_lines_app a b : whole_lines a → whole_lines b → whole_lines (a ++ b).
Proof.
  intros Ha [->|[b' ->]]; [by rewrite app_nil_r|].
  right. exists (a ++ b'). by rewrite app_assoc.
Qed.

Lemma whole_lines_concat ls : Forall whole_lines ls → whole_lines (concat ls).
Proof.
  induction 1; [by left|]. by apply whole_lines_app.
Qed.

(** A line between whole lines is a line of the text. *)
Lemma elem_of_split_lines pre body post :
  whole_lines pre → Forall (λ c, c ≠ LF) body →
  body ++ [LF] ∈ split_lines (pre ++ (body ++ [LF]) ++ post).
Proof.
  intros [->|[a ->]] Hbody.
  - rewrite app_nil_l, split_lines_app.
    rewrite (split_lines_line _ Hbody). set_solver.
  - rewrite split_lines_app, split_lines_app.
    rewrite (split_lines_line _ Hbody). set_solver.
Qed.

Lemma whole_lines_header : whole_lines header.
Proof.
  unfold header. apply whole_lines_concat, Forall_fmap, Forall_forall.
  intros l _. right. by exists l.
Qed.

Lemma whole_lines_format_line f : whole_lines (format_line f).
Proof.
  right. unfold format_line. eexists. by rewrite !app_assoc.
Qed.

(** The line of a record is a line of the table. *)
Lemma table_line columns fs f body :
  whole_lines columns → f ∈ fs →
  format_line f = body ++ [LF] → Forall (λ c, c ≠ LF) body →
  body ++ [LF] ∈ split_lines (table columns fs).
Proof.
  intros Hcols Hf Hline Hbody.
  apply list_elem_of_split in Hf as (l1 & l2 & ->). unfold table.
  rewrite fmap_app, concat_app, fmap_cons, concat_cons, Hline.
  replace (header ++ columns ++ (u "#ifdef _c" ++ [LF]) ++
           (concat (format_line <$> l1) ++
            (body ++ [LF]) ++ concat (format_line <$> l2)) ++
           u "#endif" ++ [LF])
    with ((header ++ columns ++ (u "#ifdef _c" ++ [LF]) ++
           concat (format_line <$> l1)) ++
          (body ++ [LF]) ++
          (concat (format_line <$> l2) ++ u "#endif" ++ [LF]))
    by (by rewrite <- !app_assoc).
  apply elem_of_split_lines; [|done].
  apply whole_lines_app; [apply whole_lines_header|].
  apply whole_lines_app; [done|].
  apply whole_lines_app; [right; by eexists|].
  apply whole_lines_concat, Forall_fmap, Forall_forall.
  intros g _. apply whole_lines_format_line.
Qed.

(** Headers that hold the two lines of the example, among others: if the
    script ends normally, the line of the record is in the file. *)
Lemma r8_unorm_line_written vulkan_header format_header w out :
  has_line vulkan_header (u "  VK_FORMAT_R8_UNORM = 9,") →
  has_line format_header (u "  R8Unorm = VK_FORMAT_R8_UNORM,") →
  main vulkan_header format_header w = (Ok (), out) →
  ∃ text,
    files out !! "formatMapping.hpp" = Some text ∧
    u "_c(9, R8Unorm, UNORM) /* VK_FORMAT_R8_UNORM */" ++ [LF]
      ∈ split_lines text.
Proof.
  intros Hvk Hfmt Hmain.
  rewrite main_spec in Hmain.
  destruct (read_vulkan_formats _ ∅) as [T|] eqn:HT; [|done].
  destruct (read_formats T _ []) as [fs|] eqn:Hfs; [|done].
  injection Hmain as <-.
  exists (table (u "/* VkFormat, PixelFormat, Implementation::VkFormatSuffix */" ++ [LF])
            (uncompressed_formats fs)).
  cbn [files]. split; [by rewrite lookup_insert_ne, lookup_insert_eq|].
  (* the dictionary holds the constant *)
  assert (T !! u "R8_UNORM" = Some (u "9")) as HT9.
  { destruct (read_vulkan_formats_Ok _ _ _ HT) as (_ & Hall & _).
    destruct Hvk as [Hin|Hin];
      apply (Hall _ (<[2%nat := u "9"]> (<[1%nat := u "R8_UNORM"]> ∅))) in Hin;
      first [ exact Hin | vm_compute; reflexivity ]. }
  (* the mapping line gives the record *)
  assert (∃ line, line ∈ readlines format_header ∧
                  re_search re_fmt line =
                    Some (<[3%nat := u "R8_UNORM"]> (<[2%nat := u "R8Unorm"]> ∅)))
    as (line & Hin & Hm).
  { destruct Hfmt as [Hin|Hin]; eexists; (split; [exact Hin|]);
      vm_compute; reflexivity. }
  destruct (read_formats_line _ _ _ _ _ Hfs Hin Hm) as (f & Hf & Hok).
  apply read_format_Ok in Hok as (Hc & Hmag & Hvn & Hval & sm & Hs & Hsuf & _).
  change (group _ 2) with (u "R8Unorm") in Hmag.
  change (group _ 3) with (u "R8_UNORM") in Hvn.
  rewrite Hvn in Hval, Hs. rewrite HT9 in Hval. injection Hval as Hval.
  assert (re_search re_suffix (u "R8_UNORM") = Some (suffix_groups (u "UNORM")))
    as Hs' by (vm_compute; reflexivity).
  rewrite Hs' in Hs. injection Hs as <-. rewrite group_suffix_groups in Hsuf.
  assert (compressed f = false) as Hc'.
  { rewrite Hc. apply bool_decide_eq_false. intros [? Hx].
    by vm_compute in Hx. }
  assert (f = mkFormat false (u "R8Unorm") (u "R8_UNORM") (u "9") (u "UNORM"))
    as ->.
  { destruct f; cbn in *; congruence. }
  apply (table_line _ _ (mkFormat false (u "R8Unorm") (u "R8_UNORM") (u "9") (u "UNORM"))
           (u "_c(9, R8Unorm, UNORM) /* VK_FORMAT_R8_UNORM */")).
  - right. eexists. reflexivity.
  - unfold uncompressed_formats, partition. cbn [fst].
    apply elem_of_filter. by split.
  - vm_compute. reflexivity.
  - apply Forall_forall. intros c Hc0.
    apply list_elem_of_In in Hc0. vm_compute in Hc0.
    intuition (subst; discriminate).
Qed.

(** * The claims *)

(** C1.  On a first header that is the line [  VK_FORMAT_R8_UNORM = 9,]
    and a second header that is the line [  R8Unorm = VK_FORMAT_R8_UNORM,]
    the script ends normally, and the file [formatMapping.hpp] it writes
    contains the line [_c(9, R8Unorm, UNORM) /* VK_FORMAT_R8_UNORM */];
    that line is the only one written between the guard lines.  The same
    line is in the file for any two headers that hold these two lines
    among others, whenever the script ends normally on them. *)
Theorem C1_r8_unorm_example (w : World) :
  (∃ out text,
     main (u "  VK_FORMAT_R8_UNORM = 9," ++ [LF])
          (u "  R8Unorm = VK_FORMAT_R8_UNORM," ++ [LF]) w = (Ok (), out) ∧
     files out !! "formatMapping.hpp" = Some text ∧
     u "_c(9, R8Unorm, UNORM) /* VK_FORMAT_R8_UNORM */" ++ [LF]
       ∈ split_lines text ∧
     text = header ++
            u "/* VkFormat, PixelFormat, Implementation::VkFormatSuffix */" ++ [LF] ++
            u "#ifdef _c" ++ [LF] ++
            u "_c(9, R8Unorm, UNORM) /* VK_FORMAT_R8_UNORM */" ++ [LF] ++
            u "#endif" ++ [LF]) ∧
  (∀ vulkan_header format_header out,
     has_line vulkan_header (u "  VK_FORMAT_R8_UNORM = 9,") →
     has_line format_header (u "  R8Unorm = VK_FORMAT_R8_UNORM,") →
     main vulkan_header format_header w = (Ok (), out) →
     ∃ text,
       files out !! "formatMapping.hpp" = Some text ∧
       u "_c(9, R8Unorm, UNORM) /* VK_FORMAT_R8_UNORM */" ++ [LF]
         ∈ split_lines text).
Proof.
  split; [|intros ? ? ?; apply r8_unorm_line_written].
  rewrite main_spec.
  assert (read_vulkan_formats
            (readlines (u "  VK_FORMAT_R8_UNORM = 9," ++ [LF])) ∅
          = Ok {[ u "R8_UNORM" := u "9" ]}) as -> by (vm_compute; reflexivity).
  assert (read_formats {[ u "R8_UNORM" := u "9" ]}
            (readlines (u "  R8Unorm = VK_FORMAT_R8_UNORM," ++ [LF])) []
          = Ok [mkFormat false (u "R8Unorm") (u "R8_UNORM") (u "9") (u "UNORM")])
    as -> by (vm_compute; reflexivity).
  eexists _, _. split; [reflexivity|]. cbn [files].
  split; [by rewrite lookup_insert_ne, lookup_insert_eq|].
  split; [|vm_compute; reflexivity].
  apply list_elem_of_In. vm_compute. tauto.
Qed.

(** C2.  When both loops end normally the two files hold the two parts
    of the list of records: the records that are not compressed, and the
    compressed ones whose name does not start with [Pvrtc2].  Each part is
    a filter of the list, so it keeps the order of the list, which is the
    order of the lines; no record is in both parts, and a compressed
    record whose name starts with [Pvrtc2] is in neither.  A line
    [  CompressedBc1RGBAUnorm = VK_FORMAT_BC1_RGBA_UNORM_BLOCK,] of the
    second header gives a record that is compressed and is in the
    compressed part only. *)
Theorem C2_partition vulkan_header format_header w T formats :
  read_vulkan_formats (readlines vulkan_header) ∅ = Ok T →
  read_formats T (readlines format_header) [] = Ok formats →
  ∃ out plain packed,
    main vulkan_header format_header w = (Ok (), out) ∧
    files out !! "formatMapping.hpp" =
      Some (table (u "/* VkFormat, PixelFormat, Implementation::VkFormatSuffix */" ++ [LF]) plain) ∧
    files out !! "compressedFormatMapping.hpp" =
      Some (table (u "/* VkFormat, CompressedPixelFormat, Implementation::VkFormatSuffix */" ++ [LF]) packed) ∧
    Forall2 (λ m f, read_format T m = Ok f)
      (omap (re_search re_fmt) (readlines format_header)) formats ∧
    plain = List.filter (λ f, negb (compressed f)) formats ∧
    packed = List.filter (λ f, negb (startswith (magnum f) (u "Pvrtc2")))
               (List.filter compressed formats) ∧
    sublist plain formats ∧ sublist packed formats ∧
    (∀ f, f ∈ plain ↔ f ∈ formats ∧ compressed f = false) ∧
    (∀ f, f ∈ packed ↔
          f ∈ formats ∧ compressed f = true ∧
          startswith (magnum f) (u "Pvrtc2") = false) ∧
    (∀ f, compressed f = true → startswith (magnum f) (u "Pvrtc2") = true →
          (f ∉ plain) ∧ (f ∉ packed)) ∧
    (∀ f, ¬ (f ∈ plain ∧ f ∈ packed)) ∧
    (∀ line,
       line ∈ readlines format_header →
       line = u "  CompressedBc1RGBAUnorm = VK_FORMAT_BC1_RGBA_UNORM_BLOCK," ∨
       line = u "  CompressedBc1RGBAUnorm = VK_FORMAT_BC1_RGBA_UNORM_BLOCK," ++ [LF] →
       ∃ f, f ∈ formats ∧ compressed f = true ∧
            magnum f = u "Bc1RGBAUnorm" ∧
            vulkan_name f = u "BC1_RGBA_UNORM_BLOCK" ∧
            f ∈ packed ∧ (f ∉ plain)).
Proof.
  intros HT Hfs. rewrite main_spec, HT, Hfs.
  assert (∀ f, f ∈ uncompressed_formats formats ↔
               f ∈ formats ∧ compressed f = false) as Hplain.
  { intros f. unfold uncompressed_formats, partition. cbn [fst].
    rewrite elem_of_filter, negb_true_iff. done. }
  assert (∀ f, f ∈ compressed_formats formats ↔
               f ∈ formats ∧ compressed f = true ∧
               startswith (magnum f) (u "Pvrtc2") = false) as Hpacked.
  { intros f. unfold compressed_formats, partition. cbn [snd].
    rewrite !elem_of_filter, negb_true_iff. tauto. }
  eexists _, (uncompressed_formats formats), (compressed_formats formats).
  split; [reflexivity|]. cbn [files].
  split; [by rewrite lookup_insert_ne, lookup_insert_eq|].
  split; [by rewrite lookup_insert_eq|].
  split.
  { apply read_formats_Ok in Hfs as (new & -> & Hall). by rewrite app_nil_l. }
  split; [done|]. split; [done|].
  split; [apply filter_sublist|].
  split.
  { unfold compressed_formats, partition. cbn [snd].
    etrans; apply filter_sublist. }
  split; [done|]. split; [done|]. split.
  { intros f Hc Hp. rewrite Hplain, Hpacked. split; intros H; destruct H; intuition congruence. }
  split.
  { intros f. rewrite Hplain, Hpacked. intuition congruence. }
  intros line Hin Hline.
  assert (∃ m, re_search re_fmt line = Some m ∧
               m !! 1%nat = Some (u "Compressed") ∧
               group m 2 = u "Bc1RGBAUnorm" ∧
               group m 3 = u "BC1_RGBA_UNORM_BLOCK") as (m & Hm & Hm1 & Hm2 & Hm3).
  { destruct Hline as [-> | ->]; eexists; (split; [vm_compute; reflexivity|]);
      repeat split; vm_compute; reflexivity. }
  destruct (read_formats_line _ _ _ _ _ Hfs Hin Hm) as (f & Hf & Hok).
  apply read_format_Ok in Hok as (Hc & Hmag & Hvn & _).
  rewrite Hm1 in Hc. rewrite Hm2 in Hmag. rewrite Hm3 in Hvn.
  assert (compressed f = true) as Hc' by (rewrite Hc; by apply bool_decide_eq_true).
  exists f. repeat split; auto.
  - apply Hpacked. repeat split; auto. by rewrite Hmag.
  - rewrite Hplain. intros [_ ?]. congruence.
Qed.

(** C3.  Each of the four conditions stops the script with an
    [AssertionError]: a symbol of the first header that is already in the
    dictionary, a mapping line that names a symbol missing from the
    dictionary, a name in which the suffix pattern finds nothing, and a
    name whose suffix is [URGB].  The run ends there with exit status 1,
    with nothing printed and no file touched. *)
Theorem C3_fatal_conditions vulkan_header format_header w :
  fatal vulkan_header format_header →
  main vulkan_header format_header w = (Raise AssertionError, w) ∧
  exit_status (main vulkan_header format_header w).1 = 1%Z.
Proof.
  intros Hfatal.
  assert (main vulkan_header format_header w = (Raise AssertionError, w)) as ->;
    [|done].
  destruct Hfatal as [pre line post m T Hl HT Hm Hdup|T line m HT Hin Hm Hno
                     |line m Hin Hm Hno|line m sm Hin Hm Hs Hu].
  - rewrite main_spec, Hl, read_vulkan_formats_app, HT. cbn [res_bind].
    rewrite read_vulkan_formats_cons, Hm.
    apply mem_true in Hdup. by rewrite Hdup.
  - eapply main_Raise_format; eauto. intros T' HT'.
    rewrite HT in HT'. injection HT' as <-. apply read_format_Raise. auto.
  - eapply main_Raise_format; eauto. intros T _. apply read_format_Raise. auto.
  - by eapply main_Raise_urgb.
Qed.

(** C4.  When a mapping line of the second header names a constant whose
    suffix is [URGB], the script stops with an [AssertionError] whatever
    else the headers hold, and the world is as it was: no file was opened
    or written and nothing was printed. *)
Theorem C4_urgb_no_output vulkan_header format_header w line m sm :
  line ∈ readlines format_header →
  re_search re_fmt line = Some m →
  re_search re_suffix (group m 3) = Some sm →
  group sm 1 = u "URGB" →
  ∃ out,
    main vulkan_header format_header w = (Raise AssertionError, out) ∧
    files out = files w ∧ stdout out = stdout w ∧
    files out !! "formatMapping.hpp" = files w !! "formatMapping.hpp" ∧
    files out !! "compressedFormatMapping.hpp" =
      files w !! "compressedFormatMapping.hpp".
Proof.
  intros Hin Hm Hs Hu. exists w.
  by rewrite (main_Raise_urgb _ _ _ _ _ _ Hin Hm Hs Hu).
Qed.

(** C5.  When both loops end normally the script ends normally (exit
    status 0) and both files are written, whatever the number of records.
    If that number is not 135 the line [Unexpected number of formats] is
    printed, and if it is 135 nothing is printed. *)
Theorem C5_soft_count_check vulkan_header format_header w T formats :
  read_vulkan_formats (readlines vulkan_header) ∅ = Ok T →
  read_formats T (readlines format_header) [] = Ok formats →
  ∃ out,
    main vulkan_header format_header w = (Ok (), out) ∧
    exit_status (main vulkan_header format_header w).1 = 0%Z ∧
    (length formats ≠ 135%nat →
       stdout out = stdout w ++ u "Unexpected number of formats" ++ [LF]) ∧
    (length formats = 135%nat → stdout out = stdout w) ∧
    files out !! "formatMapping.hpp" =
      Some (table (u "/* VkFormat, PixelFormat, Implementation::VkFormatSuffix */" ++ [LF])
              (uncompressed_formats formats)) ∧
    files out !! "compressedFormatMapping.hpp" =
      Some (table (u "/* VkFormat, CompressedPixelFormat, Implementation::VkFormatSuffix */" ++ [LF])
              (compressed_formats formats)).
Proof.
  intros HT Hfs. rewrite main_spec, HT, Hfs. eexists. split; [reflexivity|].
  cbn [fst stdout files exit_status]. split; [done|]. unfold warning.
  split; [|split; [|split]].
  - intros Hne. apply Nat.eqb_neq in Hne. by rewrite Hne.
  - intros ->. by rewrite app_nil_r.
  - by rewrite lookup_insert_ne, lookup_insert_eq.
  - by rewrite lookup_insert_eq.
Qed.

(** C6 (amended).  For a mapping line that matched, the suffix pattern
    is searched in the name of the constant.  If it is found, the suffix
    is a marker [U] or [S] and one of NORM, INT, FLOAT, RGB, standing
    in the name after an underscore that is not its first character, at
    the last such place.  A name that holds [_SFLOAT] after at least one
    character has the suffix [SFLOAT] when no such place starts later in
    it.  If the pattern is not found there is no such place, and the
    script stops with an [AssertionError]. *)
Theorem C6_suffix_derivation vulkan_header format_header w line m :
  line ∈ readlines format_header →
  re_search re_fmt line = Some m →
  match re_search re_suffix (group m 3) with
  | Some sm =>
      ∃ c k pre post,
        group sm 1 = c :: k ∧ (c = 85 ∨ c = 83) ∧ k ∈ kinds ∧
        group m 3 = pre ++ 95 :: (c :: k) ++ post ∧ pre ≠ [] ∧
        ∀ pre' t' post', candidate (group m 3) pre' t' post' →
                         (length pre' ≤ length pre)%nat
  | None =>
      (∀ pre t post, ¬ candidate (group m 3) pre t post) ∧
      main vulkan_header format_header w = (Raise AssertionError, w)
  end ∧
  (∀ pre post,
     group m 3 = pre ++ u "_SFLOAT" ++ post → pre ≠ [] →
     (∀ pre' t' post', candidate (group m 3) pre' t' post' →
                       (length pre' ≤ length pre)%nat) →
     (λ sm, group sm 1) <$> re_search re_suffix (group m 3) =
       Some (u "SFLOAT")).
Proof.
  intros Hin Hm. destruct (fmt_name_word _ _ Hm) as [_ Hw].
  pose proof (search_re_suffix_group _ Hw) as Hd. split.
  - destruct (re_search re_suffix (group m 3)) as [sm|] eqn:Hs.
    + cbn in Hd. symmetry in Hd.
      destruct (derive_suffix_Some _ _ Hd) as (pre & post & Hc & Hmax).
      destruct (token_in_word_name _ _ _ _ Hw Hc) as (c & k & Ht & Hmark & Hk).
      destruct Hc as (Hv & Hne & _).
      exists c, k, pre, post. rewrite <- Ht. done.
    + cbn in Hd. symmetry in Hd. split; [by apply derive_suffix_None|].
      eapply main_Raise_format; eauto.
      intros T _. apply read_format_Raise. auto.
  - intros pre post Hv Hne Hmax. rewrite Hd.
    eapply derive_suffix_last; [|exact Hmax].
    split; [exact Hv|]. split; [done|].
    exists 83, (u "FLOAT"). repeat split; auto. unfold kinds. set_solver.
Qed.

(** C7.  When both loops end normally, every mapping line of the second
    header that matched has a record, and the value of every record is
    what the dictionary holds for its name.  What the dictionary holds
    for a name is the run of digits captured from a line of the first
    header, character for character; the line written for a record
    carries it unchanged. *)
Theorem C7_source_value vulkan_header format_header T formats :
  read_vulkan_formats (readlines vulkan_header) ∅ = Ok T →
  read_formats T (readlines format_header) [] = Ok formats →
  (∀ line m,
     line ∈ readlines format_header → re_search re_fmt line = Some m →
     ∃ f, f ∈ formats ∧ magnum f = group m 2 ∧ vulkan_name f = group m 3 ∧
          T !! vulkan_name f = Some (vulkan f)) ∧
  (∀ f, f ∈ formats →
     T !! vulkan_name f = Some (vulkan f) ∧
     format_line f =
       u "_c(" ++ vulkan f ++ u ", " ++ magnum f ++ u ", " ++ suffix f ++
       u ") /* VK_FORMAT_" ++ vulkan_name f ++ u " */" ++ [LF]) ∧
  (∀ k v, T !! k = Some v →
     ∃ line m ws tl,
       line ∈ readlines vulkan_header ∧
       re_search re_vk line = Some m ∧ group m 1 = k ∧ group m 2 = v ∧
       line = ws ++ u "VK_FORMAT_" ++ k ++ u " = " ++ v ++ tl ∧
       tl ∈ line_ends ∧
       v ≠ [] ∧ Forall (λ c, is_digit c = true) v).
Proof.
  intros HT Hfs. split; [|split].
  - intros line m Hin Hm.
    destruct (read_formats_line _ _ _ _ _ Hfs Hin Hm) as (f & Hf & Hok).
    apply read_format_Ok in Hok as (_ & ? & ? & ? & _). eauto.
  - intros f Hf.
    destruct (read_formats_elem _ _ _ _ Hfs Hf) as (line & m & _ & _ & Hok).
    apply read_format_Ok in Hok as (_ & _ & _ & ? & _). done.
  - intros k v Hkv.
    destruct (read_vulkan_formats_Ok _ _ _ HT) as (_ & _ & Hfrom).
    destruct (Hfrom _ _ Hkv) as [He|(line & m & Hin & Hm & Hk & Hv)].
    { by rewrite lookup_empty in He. }
    destruct (re_vk_shape _ _ Hm) as
      (ws & k' & v' & tl & Hline & _ & _ & _ & _ & Hne & Hdig & Htl & ->).
    unfold group in Hk, Hv.
    rewrite lookup_insert_ne, lookup_insert_eq in Hk by done.
    rewrite lookup_insert_eq in Hv. cbn in Hk, Hv. subst k' v'.
    exists line, (<[2%nat := v]> (<[1%nat := k]> ∅)), ws, tl.
    repeat split; auto.
Qed.

(** C8.  The outcome of a run and the text of the two files depend on
    the two headers only: runs from two different worlds end the same
    way and, when they end normally, leave the same text in each of the
    two files, whatever those files held before.  A second run after the
    first, on the same headers, ends the same way and leaves every file
    as the first run left it. *)
Theorem C8_deterministic vulkan_header format_header w1 w2 :
  (main vulkan_header format_header w1).1 =
    (main vulkan_header format_header w2).1 ∧
  ((main vulkan_header format_header w1).1 = Ok () →
   ∀ name, name ∈ ["formatMapping.hpp"; "compressedFormatMapping.hpp"]%string →
     is_Some (files (main vulkan_header format_header w1).2 !! name) ∧
     files (main vulkan_header format_header w1).2 !! name =
       files (main vulkan_header format_header w2).2 !! name) ∧
  (main vulkan_header format_header
     (main vulkan_header format_header w1).2).1 =
    (main vulkan_header format_header w1).1 ∧
  files (main vulkan_header format_header
           (main vulkan_header format_header w1).2).2 =
    files (main vulkan_header format_header w1).2.
Proof.
  rewrite !main_spec.
  destruct (read_vulkan_formats _ ∅) as [T|e]; [|done].
  destruct (read_formats T _ []) as [fs|e]; [|done].
  cbn [fst snd files]. split; [done|]. split; [|split; [done|]].
  - intros _ name Hname. set_unfold in Hname.
    destruct Hname as [->|[->|[]]].
    + by rewrite !(lookup_insert_ne _ "compressedFormatMapping.hpp"),
        !lookup_insert_eq.
    + by rewrite !lookup_insert_eq.
  - apply map_eq. intros name.
    destruct (decide (name = "compressedFormatMapping.hpp")) as [->|?];
      [by rewrite !lookup_insert_eq|].
    rewrite !(lookup_insert_ne _ "compressedFormatMapping.hpp") by done.
    destruct (decide (name = "formatMapping.hpp")) as [->|?];
      [by rewrite !lookup_insert_eq|].
    rewrite !(lookup_insert_ne _ "formatMapping.hpp") by done.
    by rewrite !lookup_insert_ne.
Qed.

(** C9.  When both loops end normally, the suffix of every record is one
    of UNORM, SNORM, UINT, SINT, UFLOAT, SFLOAT, SRGB, and so is the
    suffix of every record written to either file.  The name the suffix
    is taken from is made of word characters only, so the bar, which the
    class [[U|S]] accepts and which is not a word character, never is the
    marker. *)
Theorem C9_suffix_set vulkan_header format_header T formats f :
  read_vulkan_formats (readlines vulkan_header) ∅ = Ok T →
  read_formats T (readlines format_header) [] = Ok formats →
  f ∈ formats ∨ f ∈ uncompressed_formats formats ∨
    f ∈ compressed_formats formats →
  suffix f ∈ suffixes ∧
  Forall (λ c, is_word c = true) (vulkan_name f) ∧
  U_bar_S 124 = true ∧ is_word 124 = false ∧
  ∃ c k, suffix f = c :: k ∧ (c = 85 ∨ c = 83) ∧ k ∈ kinds.
Proof.
  intros HT Hfs Hf.
  assert (f ∈ formats) as Hin.
  { destruct Hf as [?|[Hf|Hf]]; [done| |].
    - unfold uncompressed_formats, partition in Hf. cbn [fst] in Hf.
      by apply elem_of_filter in Hf as [? _].
    - unfold compressed_formats, partition in Hf. cbn [snd] in Hf.
      apply elem_of_filter in Hf as [Hf _].
      by apply elem_of_filter in Hf as [? _]. }
  destruct (read_formats_elem _ _ _ _ Hfs Hin) as (line & m & _ & Hm & Hok).
  apply read_format_Ok in Hok as (_ & _ & Hname & _ & sm & Hs & Hsuf & Hne).
  destruct (fmt_name_word _ _ Hm) as [_ Hw]. rewrite <- Hname in Hw.
  pose proof (search_re_suffix_group _ Hw) as Hd.
  rewrite Hs in Hd. cbn in Hd. rewrite <- Hsuf in Hd. symmetry in Hd.
  destruct (derive_suffix_Some _ _ Hd) as (pre & post & Hc & _).
  destruct (token_in_word_name _ _ _ _ Hw Hc) as (c & k & Ht & Hmark & Hk).
  split; [|split; [done|split; [done|split; [done|by eauto]]]].
  rewrite Ht in Hne |- *. unfold kinds in Hk. unfold suffixes.
  set_unfold in Hk. set_unfold.
  destruct Hmark as [-> | ->], Hk as [->|[->|[->|[->|[]]]]];
    first [ done | tauto ].
Qed.

(** C10.  The record the second loop builds for a mapping line takes its
    suffix from the last place of the constant's name where an
    underscore that is not the first character is followed by a token:
    the greedy [\w+] takes as much of the name as it can.  When that
    last token is not URGB the body of the loop returns the record with
    that token for suffix, and when it is the body raises, whatever
    tokens stand before it.  So a line whose name is
    [x ++ "_SFLOAT_SRGB"], with [x] not empty, gives a record with the
    suffix [SRGB], not [SFLOAT].  In a run whose loops end normally
    every record built, and every record written to either file, has
    for suffix the token of the last such place of its name, and every
    mapping line has its record among them. *)
Theorem C10_rightmost_token vulkan_header format_header T :
  read_vulkan_formats (readlines vulkan_header) ∅ = Ok T →
  (∀ line m pre t post value,
     re_search re_fmt line = Some m →
     T !! group m 3 = Some value →
     candidate (group m 3) pre t post →
     (∀ pre' t' post', candidate (group m 3) pre' t' post' →
                       (length pre' ≤ length pre)%nat) →
     (t ≠ u "URGB" →
      read_format T m =
        Ok (mkFormat (bool_decide (is_Some (m !! 1%nat))) (group m 2)
              (group m 3) value t)) ∧
     (t = u "URGB" → read_format T m = Raise AssertionError)) ∧
  (∀ line m x value,
     re_search re_fmt line = Some m →
     T !! group m 3 = Some value →
     x ≠ [] → group m 3 = x ++ u "_SFLOAT_SRGB" →
     read_format T m =
       Ok (mkFormat (bool_decide (is_Some (m !! 1%nat))) (group m 2)
             (group m 3) value (u "SRGB")) ∧
     u "SRGB" ≠ u "SFLOAT") ∧
  (∀ formats,
     read_formats T (readlines format_header) [] = Ok formats →
     (∀ f, f ∈ formats ∨ f ∈ uncompressed_formats formats ∨
             f ∈ compressed_formats formats →
        (∃ pre post,
           candidate (vulkan_name f) pre (suffix f) post ∧
           ∀ pre' t' post', candidate (vulkan_name f) pre' t' post' →
                            (length pre' ≤ length pre)%nat) ∧
        (∀ pre t post,
           candidate (vulkan_name f) pre t post →
           (∀ pre' t' post', candidate (vulkan_name f) pre' t' post' →
                             (length pre' ≤ length pre)%nat) →
           suffix f = t) ∧
        (∀ x, x ≠ [] → vulkan_name f = x ++ u "_SFLOAT_SRGB" →
              suffix f = u "SRGB")) ∧
     (∀ line m x,
        line ∈ readlines format_header →
        re_search re_fmt line = Some m →
        x ≠ [] → group m 3 = x ++ u "_SFLOAT_SRGB" →
        ∃ f, f ∈ formats ∧ vulkan_name f = group m 3 ∧
             suffix f = u "SRGB")).
Proof.
  intros HT.
  assert (∀ v x, x ≠ [] → v = x ++ u "_SFLOAT_SRGB" →
            candidate v (x ++ u "_SFLOAT") (u "SRGB") [] ∧
            ∀ pre' t' post', candidate v pre' t' post' →
                             (length pre' ≤ length (x ++ u "_SFLOAT"))%nat)
    as Hlast.
  { intros v x Hx ->.
    assert (candidate (x ++ u "_SFLOAT_SRGB") (x ++ u "_SFLOAT") (u "SRGB") [])
      as Hc.
    { split; [by rewrite <- app_assoc|]. split; [by destruct x|].
      exists 83, (u "RGB"). repeat split; auto. unfold kinds. set_solver. }
    split; [done|]. apply (candidate_at_end _ _ _ Hc). reflexivity. }
  assert (∀ line m pre t post value,
     re_search re_fmt line = Some m →
     T !! group m 3 = Some value →
     candidate (group m 3) pre t post →
     (∀ pre' t' post', candidate (group m 3) pre' t' post' →
                       (length pre' ≤ length pre)%nat) →
     (t ≠ u "URGB" →
      read_format T m =
        Ok (mkFormat (bool_decide (is_Some (m !! 1%nat))) (group m 2)
              (group m 3) value t)) ∧
     (t = u "URGB" → read_format T m = Raise AssertionError)) as Hbody.
  { intros line m pre t post value Hm Hval Hc Hmax.
    destruct (fmt_name_word _ _ Hm) as [_ Hw].
    pose proof (search_re_suffix_group _ Hw) as Hd.
    rewrite (derive_suffix_last _ _ _ _ Hc Hmax) in Hd.
    destruct (re_search re_suffix (group m 3)) as [sm|] eqn:Hs; [|done].
    cbn in Hd. injection Hd as Hg. split.
    - intros Hne. unfold read_format, mbind, res_mbind.
      assert (mem (group m 3) T = true) as -> by (apply mem_true; eauto).
      cbn [assert res_bind]. rewrite Hs.
      assert (str_eqb (group sm 1) (u "URGB") = false) as ->.
      { unfold str_eqb. apply bool_decide_eq_false. by rewrite Hg. }
      cbn [negb assert res_bind]. unfold getitem. by rewrite Hval, Hg.
    - intros ->. apply read_format_Raise. right. right. eauto. }
  assert (∀ line m f,
            re_search re_fmt line = Some m → read_format T m = Ok f →
            vulkan_name f = group m 3 ∧
            derive_suffix (vulkan_name f) = Some (suffix f)) as Hrec.
  { intros line m f Hm Hok.
    apply read_format_Ok in Hok as (_ & _ & Hname & _ & sm & Hs & Hsuf & _).
    split; [done|].
    destruct (fmt_name_word _ _ Hm) as [_ Hw]. rewrite <- Hname in Hw.
    pose proof (search_re_suffix_group _ Hw) as Hd.
    rewrite Hs in Hd. cbn in Hd. by rewrite <- Hsuf in Hd. }
  split; [exact Hbody|]. split.
  - intros line m x value Hm Hval Hx Hv.
    destruct (Hlast _ _ Hx Hv) as [Hc Hmax].
    pose proof (Hbody _ _ _ _ _ _ Hm Hval Hc Hmax) as [Hok _].
    split; [by apply Hok|done].
  - intros formats Hfs. split.
    + intros f Hf.
      assert (f ∈ formats) as Hin.
      { destruct Hf as [?|[Hf|Hf]]; [done| |].
        - unfold uncompressed_formats, partition in Hf. cbn [fst] in Hf.
          by apply elem_of_filter in Hf as [? _].
        - unfold compressed_formats, partition in Hf. cbn [snd] in Hf.
          apply elem_of_filter in Hf as [Hf _].
          by apply elem_of_filter in Hf as [? _]. }
      destruct (read_formats_elem _ _ _ _ Hfs Hin) as (line & m & _ & Hm & Hok).
      destruct (Hrec _ _ _ Hm Hok) as [_ Hd].
      split; [by apply derive_suffix_Some|]. split.
      * intros pre t post Hc Hmax.
        rewrite (derive_suffix_last _ _ _ _ Hc Hmax) in Hd. congruence.
      * intros x Hx Hv. destruct (Hlast _ _ Hx Hv) as [Hc Hmax].
        rewrite (derive_suffix_last _ _ _ _ Hc Hmax) in Hd. congruence.
    + intros line m x Hin Hm Hx Hv.
      destruct (read_formats_line _ _ _ _ _ Hfs Hin Hm) as (f & Hf & Hok).
      destruct (Hrec _ _ _ Hm Hok) as [Hname Hd].
      exists f. split; [done|]. split; [done|].
      rewrite Hname in Hd. destruct (Hlast _ _ Hx Hv) as [Hc Hmax].
      rewrite (derive_suffix_last _ _ _ _ Hc Hmax) in Hd. congruence.
Qed.

(** * Further properties of the script *)

(** ** The patterns, exactly *)

(** A run of the class that cannot be extended is taken whole first. *)
Lemma star_cls_greedy (p : char → bool) (k : cont) a : ∀ pos b g m,
  Forall (λ c, p c = true) a → stops p b →
  k (pos + length a)%nat b g = Some m →
  star_cls p k pos (a ++ b) g = Some m.
Proof.
  induction a as [|c a IH]; intros pos b g m Ha Hb Hk.
  - rewrite Nat.add_0_r in Hk. destruct b as [|c b]; [done|].
    cbn [app star_cls]. cbn in Hb. by rewrite Hb.
  - inversion_clear Ha as [|? ? Hc Ha']. cbn [app star_cls]. rewrite Hc.
    rewrite (IH (S pos) b g m); auto.
    cbn [length] in Hk. by rewrite Nat.add_succ_r in Hk.
Qed.

Lemma plus_cls_greedy (p : char → bool) (k : cont) a pos b g m :
  a ≠ [] → Forall (λ c, p c = true) a → stops p b →
  k (pos + length a)%nat b g = Some m →
  rmatch (Plus p) k pos (a ++ b) g = Some m.
Proof.
  intros Hne Ha Hb Hk. destruct a as [|c a]; [done|].
  inversion_clear Ha as [|? ? Hc Ha']. cbn [app rmatch]. rewrite Hc.
  apply star_cls_greedy; auto.
  cbn [length] in Hk. by rewrite Nat.add_succ_r in Hk.
Qed.

(** The same run, when the rest of the pattern fails after it whatever
    was taken: the repetition fails. *)
Lemma star_cls_fail (p : char → bool) (k : cont) a : ∀ pos b g,
  Forall (λ c, p c = true) a → stops p b →
  (∀ n, (n ≤ length a)%nat → k (pos + n)%nat (drop n (a ++ b)) g = None) →
  star_cls p k pos (a ++ b) g = None.
Proof.
  induction a as [|c a IH]; intros pos b g Ha Hb Hk.
  - specialize (Hk 0%nat (Nat.le_refl _)). rewrite Nat.add_0_r in Hk.
    cbn in Hk. destruct b as [|c b]; [done|].
    cbn [app star_cls]. cbn in Hb. by rewrite Hb.
  - inversion_clear Ha as [|? ? Hc Ha']. cbn [app star_cls]. rewrite Hc.
    rewrite IH; auto.
    + specialize (Hk 0%nat (Nat.le_0_l _)). by rewrite Nat.add_0_r in Hk.
    + intros n Hn. specialize (Hk (S n)). cbn [length drop app] in Hk.
      rewrite Nat.add_succ_r in Hk. apply Hk. lia.
Qed.

Lemma stops_cons (p : char → bool) c b : p c = false → stops p (c :: b).
Proof. done. Qed.

Lemma rmatch_Seq r1 r2 (k : cont) pos s g :
  rmatch (Seq r1 r2) k pos s g = rmatch r1 (rmatch r2 k) pos s g.
Proof. done. Qed.

Lemma rmatch_Bol (k : cont) s g : rmatch Bol k 0 s g = k 0%nat s g.
Proof. done. Qed.

Lemma rmatch_Lit_app w (k : cont) pos s g :
  rmatch (Lit w) k pos (w ++ s) g = k (pos + length w)%nat s g.
Proof. by rewrite rmatch_Lit, startswith_app, drop_app_length. Qed.

Lemma rmatch_Group_Plus n (p : char → bool) (k : cont) a pos b g m :
  a ≠ [] → Forall (λ c, p c = true) a → stops p b →
  k (pos + length a)%nat b (<[n := a]> g) = Some m →
  rmatch (Group n (Plus p)) k pos (a ++ b) g = Some m.
Proof.
  intros Hne Ha Hb Hk. cbn [rmatch]. apply plus_cls_greedy; auto.
  replace (pos + length a - pos)%nat with (length a) by lia.
  by rewrite take_app_length.
Qed.

(** What [,?$] and the end of the pattern do with an end of line. *)
Lemma rmatch_line_end pos tl g :
  tl ∈ line_ends →
  rmatch (Seq (Opt (Chr 44)) (Seq Eol Eps)) (λ _ _ g', Some g') pos tl g =
  Some g.
Proof.
  unfold line_ends. intros Htl. set_unfold in Htl.
  by destruct Htl as [->|[->|[->|[->|[]]]]].
Qed.

Lemma stops_line_end (p : char → bool) tl :
  tl ∈ line_ends → p 44 = false → p LF = false → stops p tl.
Proof.
  unfold line_ends. intros Htl ? ?. set_unfold in Htl.
  by destruct Htl as [->|[->|[->|[->|[]]]]].
Qed.

(** A line of the shape of [re_vk] matches, with the two groups. *)
Lemma re_vk_complete ws k v tl :
  ws ≠ [] → Forall (λ c, is_space c = true) ws →
  k ≠ [] → Forall (λ c, is_word c = true) k →
  v ≠ [] → Forall (λ c, is_digit c = true) v →
  tl ∈ line_ends →
  re_search re_vk (ws ++ u "VK_FORMAT_" ++ k ++ u " = " ++ v ++ tl) =
  Some (<[2%nat := v]> (<[1%nat := k]> ∅)).
Proof.
  intros Hws1 Hws Hk1 Hk Hv1 Hv Htl.
  assert (rmatch re_vk (λ _ _ g, Some g) 0
            (ws ++ u "VK_FORMAT_" ++ k ++ u " = " ++ v ++ tl) ∅ =
          Some (<[2%nat := v]> (<[1%nat := k]> ∅))) as H.
  { unfold re_vk, cat. cbn [foldr]. rewrite rmatch_Seq, rmatch_Bol, rmatch_Seq.
    apply plus_cls_greedy; auto.
    { change (u "VK_FORMAT_") with (86 :: u "K_FORMAT_"). by apply stops_cons. }
    rewrite rmatch_Seq, rmatch_Lit_app, rmatch_Seq.
    apply rmatch_Group_Plus; auto.
    { change (u " = ") with (32 :: u "= "). by apply stops_cons. }
    rewrite rmatch_Seq, rmatch_Lit_app, rmatch_Seq.
    apply rmatch_Group_Plus; auto.
    { by apply stops_line_end. }
    by apply rmatch_line_end. }
  unfold re_search. destruct ws; [done|]. cbn [search_from app] in *.
  by rewrite H.
Qed.

Lemma is_word_not_space c :
  alnum_not_space → is_word c = true → is_space c = false.
Proof.
  intros Hdb. unfold is_word, is_space, in_range.
  destruct (c <? 128); [|apply Hdb].
  intros H. apply not_true_is_false. intros H'.
  repeat (rewrite ?orb_true_iff, ?andb_true_iff, ?N.leb_le, ?N.eqb_eq in H).
  repeat (rewrite ?orb_true_iff, ?andb_true_iff, ?N.leb_le, ?N.eqb_eq in H').
  lia.
Qed.

Lemma startswith_split s w : startswith s w = true → s = w ++ drop (length w) s.
Proof.
  intros H. rewrite <- (take_drop (length w) s) at 1.
  by rewrite (startswith_take _ _ H).
Qed.

Lemma rmatch_Opt r (k : cont) pos s g :
  rmatch (Opt r) k pos s g =
  match rmatch r k pos s g with
  | Some m => Some m
  | None => k pos s g
  end.
Proof. done. Qed.

Lemma rmatch_Group n r (k : cont) pos s g :
  rmatch (Group n r) k pos s g =
  rmatch r (λ pos' s' g', k pos' s' (<[n := take (pos' - pos) s]> g')) pos s g.
Proof. done. Qed.

Lemma re_fmt_tail_complete name v tl pos g :
  name ≠ [] → Forall (λ c, is_word c = true) name →
  v ≠ [] → Forall (λ c, is_word c = true) v →
  tl ∈ line_ends →
  rmatch re_fmt_tail (λ _ _ g', Some g') pos
    (name ++ u " = VK_FORMAT_" ++ v ++ tl) g =
  Some (<[3%nat := v]> (<[2%nat := name]> g)).
Proof.
  intros Hn1 Hn Hv1 Hv Htl. unfold re_fmt_tail, cat. cbn [foldr].
  rewrite rmatch_Seq. apply rmatch_Group_Plus; auto.
  { change (u " = VK_FORMAT_") with (32 :: u "= VK_FORMAT_"). by apply stops_cons. }
  rewrite rmatch_Seq, rmatch_Lit_app, rmatch_Seq.
  apply rmatch_Group_Plus; auto.
  { by apply stops_line_end. }
  by apply rmatch_line_end.
Qed.

Lemma re_fmt_tail_space pos s g :
  rmatch re_fmt_tail (λ _ _ g', Some g') pos (32 :: s) g = None.
Proof. done. Qed.

Lemma qualifier_no_space : Forall (λ c, c ≠ 32) (u "Compressed").
Proof. repeat constructor; discriminate. Qed.

(** The qualifier is not found at the head of an identifier that does not
    start with it, whatever follows the space after the identifier. *)
Lemma startswith_qualifier_app id s :
  startswith id (u "Compressed") = false →
  startswith (id ++ 32 :: s) (u "Compressed") = false.
Proof.
  intros Hid. destruct (startswith (id ++ 32 :: s) _) eqn:Hs; [|done].
  exfalso. apply startswith_take in Hs.
  change (length (u "Compressed")) with 10%nat in Hs.
  destruct (decide (10 ≤ length id)%nat) as [Hlen|Hlen].
  - rewrite take_app_le in Hs by done.
    assert (startswith id (u "Compressed") = true); [|congruence].
    rewrite <- (take_drop 10 id), Hs. apply startswith_app.
  - assert (u "Compressed" !! length id = Some 32) as Hx.
    { rewrite <- Hs, lookup_take_lt by lia.
      by rewrite lookup_app_r, Nat.sub_diag. }
    by apply (Forall_lookup_1 _ _ _ _ qualifier_no_space) in Hx.
Qed.

(** A line of the shape of [re_fmt] matches; the qualifier is taken off
    the identifier when something follows it. *)
Lemma re_fmt_complete ws id v tl :
  alnum_not_space →
  ws ≠ [] → Forall (λ c, is_space c = true) ws →
  id ≠ [] → Forall (λ c, is_word c = true) id →
  v ≠ [] → Forall (λ c, is_word c = true) v →
  tl ∈ line_ends →
  re_search re_fmt (ws ++ id ++ u " = VK_FORMAT_" ++ v ++ tl) =
  Some (fmt_groups id v).
Proof.
  intros Hdb Hws1 Hws Hid1 Hid Hv1 Hv Htl.
  assert (rmatch re_fmt (λ _ _ g, Some g) 0
            (ws ++ id ++ u " = VK_FORMAT_" ++ v ++ tl) ∅ =
          Some (fmt_groups id v)) as H.
  { change re_fmt with
      (Seq Bol (Seq (Plus is_space)
         (Seq (Opt (Group 1 (Lit (u "Compressed")))) re_fmt_tail))).
    rewrite rmatch_Seq, rmatch_Bol, rmatch_Seq.
    apply plus_cls_greedy; auto.
    { destruct id as [|c id]; [done|]. apply stops_cons.
      inversion_clear Hid. by apply is_word_not_space. }
    rewrite rmatch_Seq, rmatch_Opt, rmatch_Group, rmatch_Lit.
    change (length (u "Compressed")) with 10%nat.
    replace (0 + length ws + 10 - (0 + length ws))%nat with 10%nat by lia.
    unfold fmt_groups, qualified.
    destruct (startswith id (u "Compressed")) eqn:Hs; cbn [andb].
    - pose proof (startswith_split _ _ Hs) as Hsplit.
      change (length (u "Compressed")) with 10%nat in Hsplit.
      assert (startswith (id ++ u " = VK_FORMAT_" ++ v ++ tl) (u "Compressed")
              = true) as ->.
      { rewrite Hsplit, <- app_assoc. apply startswith_app. }
      assert (take 10 (id ++ u " = VK_FORMAT_" ++ v ++ tl) = u "Compressed")
        as ->.
      { rewrite Hsplit, <- app_assoc. apply (take_app_length (u "Compressed")). }
      assert (drop 10 (id ++ u " = VK_FORMAT_" ++ v ++ tl) =
              drop 10 id ++ u " = VK_FORMAT_" ++ v ++ tl) as ->.
      { rewrite Hsplit at 1. rewrite <- app_assoc.
        apply (drop_app_length (u "Compressed")). }
      destruct (10 <? length id)%nat eqn:Hl.
      + apply Nat.ltb_lt in Hl.
        rewrite re_fmt_tail_complete; auto.
        * intros Hd. apply (f_equal length) in Hd.
          rewrite length_drop in Hd. cbn in Hd. lia.
        * by apply Forall_drop.
      + apply Nat.ltb_ge in Hl.
        assert (drop 10 id = []) as -> by (apply drop_ge; lia).
        change (u " = VK_FORMAT_") with (32 :: u "= VK_FORMAT_") at 1.
        cbn [app]. rewrite re_fmt_tail_space.
        change (32 :: u "= VK_FORMAT_" ++ v ++ tl)
          with (u " = VK_FORMAT_" ++ v ++ tl).
        by rewrite re_fmt_tail_complete.
    - change (u " = VK_FORMAT_") with (32 :: u "= VK_FORMAT_") at 1.
      cbn [app]. rewrite (startswith_qualifier_app _ _ Hs).
      change (32 :: u "= VK_FORMAT_" ++ v ++ tl)
        with (u " = VK_FORMAT_" ++ v ++ tl).
      by rewrite re_fmt_tail_complete. }
  unfold re_search. destruct ws; [done|]. cbn [search_from app] in *.
  by rewrite H.
Qed.

(** X1.  The lines of the first header that the script takes are exactly
    those made of white space, [VK_FORMAT_], a run of word characters,
    [ = ], a run of digits, and then nothing, a comma, a newline or both;
    the symbol and the value captured are these two runs. *)
Theorem vk_line_iff line k v :
  (∃ m, re_search re_vk line = Some m ∧
        m !! 1%nat = Some k ∧ m !! 2%nat = Some v) ↔
  (∃ ws tl,
     line = ws ++ u "VK_FORMAT_" ++ k ++ u " = " ++ v ++ tl ∧
     ws ≠ [] ∧ Forall (λ c, is_space c = true) ws ∧
     k ≠ [] ∧ Forall (λ c, is_word c = true) k ∧
     v ≠ [] ∧ Forall (λ c, is_digit c = true) v ∧
     tl ∈ line_ends).
Proof.
  split.
  - intros (m & Hm & H1 & H2).
    destruct (re_vk_shape _ _ Hm) as
      (ws & k' & v' & tl & Hline & ? & ? & ? & ? & ? & ? & ? & ->).
    rewrite lookup_insert_ne, lookup_insert_eq in H1 by done.
    rewrite lookup_insert_eq in H2. injection H1 as ->. injection H2 as ->.
    exists ws, tl. done.
  - intros (ws & tl & -> & ? & ? & ? & ? & ? & ? & ?).
    eexists. split; [by apply re_vk_complete|].
    by rewrite lookup_insert_ne, !lookup_insert_eq.
Qed.

(** X2.  The lines of the second header that the script takes are exactly
    those made of white space, an identifier of word characters,
    [ = VK_FORMAT_], a run of word characters, and an end of line as
    above.  The entry is compressed exactly when the identifier starts
    with [Compressed] and goes on after it, and then the name kept is the
    rest of the identifier; an identifier that is [Compressed] alone is
    kept whole and is not compressed. *)
Theorem fmt_line_iff line c name v :
  alnum_not_space →
  (∃ m, re_search re_fmt line = Some m ∧
        bool_decide (is_Some (m !! 1%nat)) = c ∧
        m !! 2%nat = Some name ∧ m !! 3%nat = Some v) ↔
  (∃ ws id tl,
     line = ws ++ id ++ u " = VK_FORMAT_" ++ v ++ tl ∧
     ws ≠ [] ∧ Forall (λ c, is_space c = true) ws ∧
     id ≠ [] ∧ Forall (λ c, is_word c = true) id ∧
     v ≠ [] ∧ Forall (λ c, is_word c = true) v ∧
     tl ∈ line_ends ∧
     c = qualified id ∧ name = target_name id).
Proof.
  intros Hdb.
  assert (∀ id v',
            bool_decide (is_Some (fmt_groups id v' !! 1%nat)) = qualified id ∧
            fmt_groups id v' !! 2%nat = Some (target_name id) ∧
            fmt_groups id v' !! 3%nat = Some v') as Hg.
  { intros id v'. unfold fmt_groups, target_name.
    destruct (qualified id); (split; [|by simplify_map_eq]).
    - apply bool_decide_eq_true_2. by simplify_map_eq.
    - apply bool_decide_eq_false_2. simplify_map_eq. by intros [? ?]. }
  split.
  - intros (m & Hm & H1 & H2 & H3).
    destruct (re_fmt_shape _ _ Hm) as
      (ws & q & name' & v' & tl & Hline & Hws1 & Hws & Hq & Hn1 & Hn & Hv1 &
       Hv & Htl & _ & H3').
    rewrite H3 in H3'. injection H3' as <-.
    assert (Forall (λ c, is_word c = true) (q ++ name')) as Hid.
    { apply Forall_app. split; [|done].
      destruct Hq as [[-> _]|[-> _]]; [|done]. repeat constructor. }
    assert (q ++ name' ≠ []) as Hid1 by (by destruct q, name').
    pose proof (re_fmt_complete ws (q ++ name') v tl Hdb Hws1 Hws Hid1 Hid
                  Hv1 Hv Htl) as Hc.
    rewrite <- app_assoc, <- Hline, Hm in Hc. injection Hc as ->.
    destruct (Hg (q ++ name') v) as (Hg1 & Hg2 & _).
    rewrite Hg1 in H1. rewrite Hg2 in H2. injection H2 as <-.
    exists ws, (q ++ name'), tl. by rewrite <- app_assoc.
  - intros (ws & id & tl & -> & ? & ? & ? & ? & ? & ? & ? & -> & ->).
    exists (fmt_groups id v). split; [by apply re_fmt_complete|]. apply Hg.
Qed.

(** ** The dictionary, exactly *)

Lemma vk_entries_cons line lines :
  vk_entries (line :: lines) =
  match re_search re_vk line with
  | Some m => (group m 1, group m 2) :: vk_entries lines
  | None => vk_entries lines
  end.
Proof.
  unfold vk_entries, vk_entry. cbn [omap list_omap].
  by destruct (re_search re_vk line).
Qed.

Lemma read_vulkan_formats_iff lines : ∀ T0 T,
  read_vulkan_formats lines T0 = Ok T ↔
  NoDup (vk_entries lines).*1 ∧
  (∀ k, k ∈ (vk_entries lines).*1 → T0 !! k = None) ∧
  T = list_to_map (vk_entries lines) ∪ T0.
Proof.
  induction lines as [|line lines IH]; intros T0 T.
  - cbn. rewrite (left_id_L ∅ (∪)). split.
    + intros [= ->]. repeat split; [constructor|].
      intros k Hk. by apply elem_of_nil in Hk.
    + by intros (_ & _ & ->).
  - rewrite read_vulkan_formats_cons, vk_entries_cons.
    destruct (re_search re_vk line) as [m|]; [|apply IH].
    cbn [fmap list_fmap fst list_to_map foldr uncurry].
    destruct (mem (group m 1) T0) eqn:Hmem.
    + apply mem_true in Hmem as [v0 Hv0]. split; [done|].
      intros (_ & Hfresh & _). rewrite Hfresh in Hv0; [done|]. by left.
    + apply mem_false in Hmem. rewrite IH, NoDup_cons. split.
      * intros (Hnd & Hfresh & ->).
        assert (group m 1 ∉ (vk_entries lines).*1) as Hnot.
        { intros Hin. apply Hfresh in Hin. by rewrite lookup_insert_eq in Hin. }
        split; [done|]. split.
        -- intros k [->|Hk]%elem_of_cons; [done|].
           apply Hfresh in Hk.
           destruct (decide (group m 1 = k)) as [<-|Hne].
           ++ by rewrite lookup_insert_eq in Hk.
           ++ by rewrite lookup_insert_ne in Hk.
        -- rewrite <- insert_union_l. symmetry.
           apply insert_union_r. by apply not_elem_of_list_to_map_1.
      * intros ((Hnot & Hnd) & Hfresh & ->). split; [done|]. split.
        -- intros k Hk. destruct (decide (group m 1 = k)) as [<-|Hne]; [done|].
           rewrite lookup_insert_ne by done. apply Hfresh. by right.
        -- rewrite <- insert_union_l.
           apply insert_union_r. by apply not_elem_of_list_to_map_1.
Qed.

(** X3.  The first loop ends normally exactly when no symbol is defined
    by two lines of the header; the dictionary then holds one entry for
    each defining line, the symbol with its value, and nothing else.
    Otherwise the loop raises. *)
Theorem dictionary_exact lines :
  (read_vulkan_formats lines ∅ = Raise AssertionError ↔
   ¬ NoDup (vk_entries lines).*1) ∧
  (∀ T, read_vulkan_formats lines ∅ = Ok T ↔
        NoDup (vk_entries lines).*1 ∧ T = list_to_map (vk_entries lines)) ∧
  (∀ T, read_vulkan_formats lines ∅ = Ok T →
        size T = length (vk_entries lines) ∧
        ∀ k v, T !! k = Some v ↔ (k, v) ∈ vk_entries lines).
Proof.
  assert (∀ T, read_vulkan_formats lines ∅ = Ok T ↔
               NoDup (vk_entries lines).*1 ∧
               T = list_to_map (vk_entries lines)) as Hok.
  { intros T. rewrite read_vulkan_formats_iff, (right_id_L ∅ (∪)).
    split; [by intros (? & _ & ?)|]. intros [? ?]. by repeat split. }
  split; [|split; [done|]].
  - destruct (read_vulkan_formats lines ∅) as [T|e] eqn:H.
    + destruct (Hok T) as [[Hnd _] _]; [done|]. split; [done|]. by intros [].
    + rewrite (exn_unique e). split; [|done]. intros _ Hnd.
      destruct (Hok (list_to_map (vk_entries lines))) as [_ Hb].
      by specialize (Hb (conj Hnd eq_refl)).
  - intros T [Hnd ->]%Hok. split.
    + by apply map_size_list_to_map.
    + intros k v. by rewrite <- elem_of_list_to_map.
Qed.

(** ** Every way a run can end *)

Lemma read_vulkan_formats_Raise_inv lines : ∀ T0 e,
  read_vulkan_formats lines T0 = Raise e →
  ∃ pre line post m T,
    lines = pre ++ line :: post ∧ read_vulkan_formats pre T0 = Ok T ∧
    re_search re_vk line = Some m ∧ is_Some (T !! group m 1).
Proof.
  induction lines as [|line lines IH]; intros T0 e H; [done|].
  rewrite read_vulkan_formats_cons in H.
  destruct (re_search re_vk line) as [m|] eqn:Hm.
  - destruct (mem (group m 1) T0) eqn:Hmem.
    + apply mem_true in Hmem. by exists [], line, lines, m, T0.
    + destruct (IH _ _ H) as (pre & l & post & m' & T & -> & Hpre & ? & ?).
      exists (line :: pre), l, post, m', T. repeat split; auto.
      by rewrite read_vulkan_formats_cons, Hm, Hmem.
  - destruct (IH _ _ H) as (pre & l & post & m' & T & -> & Hpre & ? & ?).
    exists (line :: pre), l, post, m', T. repeat split; auto.
    by rewrite read_vulkan_formats_cons, Hm.
Qed.

Lemma read_formats_Raise_inv T lines : ∀ acc e,
  read_formats T lines acc = Raise e →
  ∃ line m, line ∈ lines ∧ re_search re_fmt line = Some m ∧
            read_format T m = Raise e.
Proof.
  induction lines as [|line lines IH]; intros acc e H; [done|].
  rewrite read_formats_cons in H.
  destruct (re_search re_fmt line) as [m|] eqn:Hm.
  - destruct (read_format T m) as [f|e'] eqn:Hf.
    + destruct (IH _ _ H) as (l & m' & ? & ? & ?).
      exists l, m'. repeat split; auto. by right.
    + injection H as ->. exists line, m. repeat split; auto. by left.
  - destruct (IH _ _ H) as (l & m' & ? & ? & ?).
    exists l, m'. repeat split; auto. by right.
Qed.

Lemma read_format_Raise_inv T m e :
  read_format T m = Raise e →
  T !! group m 3 = None ∨
  re_search re_suffix (group m 3) = None ∨
  (∃ sm, re_search re_suffix (group m 3) = Some sm ∧ group sm 1 = u "URGB").
Proof.
  unfold read_format, mbind, res_mbind.
  destruct (mem (group m 3) T) eqn:Hmem.
  - cbn [assert res_bind]. cbv zeta.
    destruct (re_search re_suffix (group m 3)) as [sm|]; [|by auto].
    unfold str_eqb.
    destruct (bool_decide (group sm 1 = u "URGB")) eqn:Hu;
      cbn [negb assert res_bind]; [|done].
    apply bool_decide_eq_true in Hu. intros _. right. right. eauto.
  - apply mem_false in Hmem. auto.
Qed.

Lemma main_fatal vulkan_header format_header w :
  fatal vulkan_header format_header →
  main vulkan_header format_header w = (Raise AssertionError, w).
Proof.
  intros [pre line post m T Hl HT Hm Hdup|T line m HT Hin Hm Hno
         |line m Hin Hm Hno|line m sm Hin Hm Hs Hu].
  - rewrite main_spec, Hl, read_vulkan_formats_app, HT. cbn [res_bind].
    rewrite read_vulkan_formats_cons, Hm.
    apply mem_true in Hdup. by rewrite Hdup.
  - eapply main_Raise_format; eauto. intros T' HT'.
    rewrite HT in HT'. injection HT' as <-. apply read_format_Raise. auto.
  - eapply main_Raise_format; eauto. intros T _. apply read_format_Raise. auto.
  - by eapply main_Raise_urgb.
Qed.

(** X4.  The two loops over the text of the two headers: an
    [AssertionError] is raised, with nothing printed or written, exactly
    under the four conditions (a symbol defined twice, a mapping to an
    undefined symbol, a name without suffix, the suffix URGB); and both
    loops run to their end, with a dictionary and a list of records,
    exactly when none of the four holds.  No line of the headers makes an
    assertion fail for another reason.  The headers are the texts read
    from the two files; what opening and decoding them may raise comes
    before the loops and is not part of this statement. *)
Theorem failure_exact vulkan_header format_header w :
  (fatal vulkan_header format_header ↔
   main vulkan_header format_header w = (Raise AssertionError, w)) ∧
  (∀ out, main vulkan_header format_header w = (Raise AssertionError, out) →
          out = w ∧ fatal vulkan_header format_header) ∧
  (¬ fatal vulkan_header format_header ↔
   ∃ T formats,
     read_vulkan_formats (readlines vulkan_header) ∅ = Ok T ∧
     read_formats T (readlines format_header) [] = Ok formats).
Proof.
  assert (∀ out,
            main vulkan_header format_header w = (Raise AssertionError, out) →
            out = w ∧ fatal vulkan_header format_header) as Hinv.
  { intros out. rewrite main_spec.
    destruct (read_vulkan_formats _ ∅) as [T|e] eqn:HT.
    - destruct (read_formats T _ []) as [fs|e] eqn:Hfs; [done|].
      intros [= -> <-]. split; [done|].
      apply read_formats_Raise_inv in Hfs as (line & m & Hin & Hm & Hr).
      apply read_format_Raise_inv in Hr as [?|[?|(sm & ? & ?)]].
      + by eapply undefined_constant.
      + by eapply no_suffix.
      + by eapply urgb_suffix.
    - intros [= -> <-]. split; [done|].
      apply read_vulkan_formats_Raise_inv in HT
        as (pre & line & post & m & T & ? & ? & ? & ?).
      by eapply duplicate_symbol. }
  split; [split; [apply main_fatal|by intros [_ ?]%Hinv]|].
  split; [exact Hinv|]. split.
  - intros Hnot.
    destruct (read_vulkan_formats (readlines vulkan_header) ∅)
      as [T|e] eqn:HT.
    + destruct (read_formats T (readlines format_header) [])
        as [fs|e] eqn:Hfs; [by eauto|].
      destruct Hnot. apply (Hinv w).
      destruct e. by rewrite main_spec, HT, Hfs.
    + destruct Hnot. apply (Hinv w).
      destruct e. by rewrite main_spec, HT.
  - intros (T & fs & HT & Hfs) Hf. apply (main_fatal _ _ w) in Hf.
    by rewrite main_spec, HT, Hfs in Hf.
Qed.

(** X5.  What a run on the text of two headers leaves behind, the two
    output files being opened and written without error: what was
    printed before is kept and at most the warning line is added to it,
    and every file but the two generated ones is as it was.  If the run
    raises [AssertionError] nothing at all has changed: every assertion
    comes before the first line that prints or writes.  If it ends
    normally both files are written in full, from the licence header to
    the closing [#endif] line. *)
Theorem run_footprint vulkan_header format_header w :
  ∃ r out,
    main vulkan_header format_header w = (r, out) ∧
    (stdout out = stdout w ∨
     stdout out = stdout w ++ u "Unexpected number of formats" ++ [LF]) ∧
    (∀ name, name ≠ "formatMapping.hpp"%string →
             name ≠ "compressedFormatMapping.hpp"%string →
             files out !! name = files w !! name) ∧
    (r = Raise AssertionError → out = w) ∧
    (r = Ok () →
     ∃ lines1 lines2,
       files out !! "formatMapping.hpp" =
         Some (header ++ lines1 ++ u "#endif" ++ [LF]) ∧
       files out !! "compressedFormatMapping.hpp" =
         Some (header ++ lines2 ++ u "#endif" ++ [LF])).
Proof.
  rewrite main_spec.
  destruct (read_vulkan_formats _ ∅) as [T|e].
  - destruct (read_formats T _ []) as [fs|e].
    + eexists _, _. split; [reflexivity|]. cbn [stdout files]. split.
      { unfold warning. destruct (length fs =? 135)%nat; [left|right]; [|done].
        by rewrite app_nil_r. }
      split.
      { intros name H1 H2. by rewrite !lookup_insert_ne. }
      split; [done|]. intros _. unfold table.
      exists
        ((u "/* VkFormat, PixelFormat, Implementation::VkFormatSuffix */" ++ [LF]) ++
         (u "#ifdef _c" ++ [LF]) ++
         concat (format_line <$> uncompressed_formats fs)),
        ((u "/* VkFormat, CompressedPixelFormat, Implementation::VkFormatSuffix */" ++ [LF]) ++
         (u "#ifdef _c" ++ [LF]) ++
         concat (format_line <$> compressed_formats fs)).
      split.
      * rewrite lookup_insert_ne, lookup_insert_eq by done.
        by rewrite <- !app_assoc.
      * rewrite lookup_insert_eq. by rewrite <- !app_assoc.
    + exists (Raise e), w.
      split; [done|]. split; [by left|]. split; [done|]. by split.
  - exists (Raise e), w.
    split; [done|]. split; [by left|]. split; [done|]. by split.
Qed.

(** ** The fields of a record *)

Lemma read_format_suffix line m T f :
  re_search re_fmt line = Some m → read_format T m = Ok f →
  suffix f ∈ suffixes.
Proof.
  intros Hm Hok.
  apply read_format_Ok in Hok as (_ & _ & Hname & _ & sm & Hs & Hsuf & Hne).
  destruct (fmt_name_word _ _ Hm) as [_ Hw]. rewrite <- Hname in Hw.
  pose proof (search_re_suffix_group _ Hw) as Hd.
  rewrite Hs in Hd. cbn in Hd. rewrite <- Hsuf in Hd. symmetry in Hd.
  destruct (derive_suffix_Some _ _ Hd) as (pre & post & Hc & _).
  destruct (token_in_word_name _ _ _ _ Hw Hc) as (c & k & Ht & Hmark & Hk).
  rewrite Ht in Hne |- *. unfold kinds in Hk. unfold suffixes.
  set_unfold in Hk. set_unfold.
  destruct Hmark as [-> | ->], Hk as [->|[->|[->|[->|[]]]]];
    first [ done | tauto ].
Qed.

Lemma read_formats_well_formed lines1 lines2 T fs f :
  read_vulkan_formats lines1 ∅ = Ok T →
  read_formats T lines2 [] = Ok fs →
  f ∈ fs → well_formed f.
Proof.
  intros HT Hfs Hf.
  destruct (read_formats_elem _ _ _ _ Hfs Hf) as (line & m & _ & Hm & Hok).
  pose proof (read_format_suffix _ _ _ _ Hm Hok) as Hsuf.
  apply read_format_Ok in Hok as (_ & Hmag & Hname & Hval & _).
  destruct (re_fmt_shape _ _ Hm) as
    (ws & q & name & v & tl & _ & _ & _ & _ & Hn1 & Hn & Hv1 & Hv & _ & H2 & H3).
  unfold group in Hmag, Hname. rewrite H2 in Hmag. rewrite H3 in Hname.
  cbn in Hmag, Hname.
  destruct (read_vulkan_formats_Ok _ _ _ HT) as (_ & _ & Hfrom).
  destruct (Hfrom _ _ Hval) as [He|(line' & m' & _ & Hm' & _ & Hv')].
  { by rewrite lookup_empty in He. }
  destruct (re_vk_shape _ _ Hm') as
    (? & k' & v' & ? & _ & _ & _ & _ & _ & Hd1 & Hd & _ & ->).
  unfold group in Hv'. rewrite lookup_insert_eq in Hv'. cbn in Hv'.
  unfold well_formed. rewrite Hmag, Hname, <- Hv'. done.
Qed.

(** X6.  Every record the loops build, and so every record written to
    either file, has a name and a constant name that are non-empty runs
    of word characters, a value that is a non-empty run of digits, and
    one of the seven suffixes. *)
Theorem records_well_formed vulkan_header format_header T formats :
  read_vulkan_formats (readlines vulkan_header) ∅ = Ok T →
  read_formats T (readlines format_header) [] = Ok formats →
  Forall well_formed formats ∧
  Forall well_formed (uncompressed_formats formats) ∧
  Forall well_formed (compressed_formats formats).
Proof.
  intros HT Hfs.
  assert (Forall well_formed formats) as Hall.
  { apply Forall_forall. intros f Hf. by eapply read_formats_well_formed. }
  split; [done|]. rewrite Forall_forall in Hall.
  unfold uncompressed_formats, compressed_formats, partition. cbn [fst snd].
  split; apply Forall_forall; intros f Hf.
  - apply elem_of_filter in Hf as [Hf _]. by apply Hall.
  - apply elem_of_filter in Hf as [Hf _].
    apply elem_of_filter in Hf as [Hf _]. by apply Hall.
Qed.

(** ** The lines of a written file *)

Lemma split_lines_concat bodies :
  Forall (Forall (λ c, c ≠ LF)) bodies →
  split_lines (concat ((λ b, b ++ [LF]) <$> bodies)) =
  (λ b, b ++ [LF]) <$> bodies.
Proof.
  induction 1 as [|b bodies Hb _ IH]; [done|].
  cbn [fmap list_fmap concat]. by rewrite split_lines_app, split_lines_line, IH.
Qed.

Lemma header_lines_no_LF : Forall (Forall (λ c, c ≠ LF)) header_lines.
Proof. apply (bool_decide_unpack _). by vm_compute. Qed.

Lemma is_word_no_LF c : is_word c = true → c ≠ LF.
Proof. by intros H ->. Qed.

Lemma is_digit_no_LF c : is_digit c = true → c ≠ LF.
Proof. by intros H ->. Qed.

Lemma suffixes_no (x : N) s :
  s ∈ suffixes → x = LF ∨ x = 41 → Forall (λ c, c ≠ x) s.
Proof.
  unfold suffixes. intros Hs Hx. set_unfold in Hs.
  destruct Hs as [->|[->|[->|[->|[->|[->|[->|[]]]]]]]], Hx as [-> | ->];
    repeat constructor; discriminate.
Qed.

Lemma format_line_body f : format_line f = line_body f ++ [LF].
Proof. unfold format_line, line_body. by rewrite <- !app_assoc. Qed.

Lemma line_body_no_LF f : well_formed f → Forall (λ c, c ≠ LF) (line_body f).
Proof.
  intros (_ & Hm & _ & Hn & _ & Hv & Hs). unfold line_body.
  repeat (apply Forall_app; split).
  all: try (repeat constructor; discriminate).
  - eapply Forall_impl; [exact Hv|]. apply is_digit_no_LF.
  - eapply Forall_impl; [exact Hm|]. apply is_word_no_LF.
  - apply suffixes_no; auto.
  - eapply Forall_impl; [exact Hn|]. apply is_word_no_LF.
Qed.

(** The lines of a table of well-formed records. *)
Lemma split_lines_table columns fs :
  Forall (λ c, c ≠ LF) columns → Forall well_formed fs →
  split_lines (table (columns ++ [LF]) fs) =
  ((λ b, b ++ [LF]) <$> header_lines) ++
  [columns ++ [LF]; u "#ifdef _c" ++ [LF]] ++
  (format_line <$> fs) ++ [u "#endif" ++ [LF]].
Proof.
  intros Hcols Hfs.
  assert (table (columns ++ [LF]) fs =
          concat ((λ b, b ++ [LF]) <$>
                  (header_lines ++ [columns; u "#ifdef _c"] ++
                   (line_body <$> fs) ++ [u "#endif"]))) as ->.
  { unfold table, header. rewrite !fmap_app, !concat_app.
    cbn [fmap list_fmap concat]. rewrite !app_nil_r, <- !app_assoc.
    rewrite <- list_fmap_compose.
    rewrite (list_fmap_ext format_line ((λ b, b ++ [LF]) ∘ line_body) fs); [done|].
    intros ? f _. apply format_line_body. }
  rewrite split_lines_concat.
  - rewrite !fmap_app. cbn [fmap list_fmap]. rewrite <- list_fmap_compose.
    do 3 f_equal. apply list_fmap_ext. intros ? f _. cbn.
    by rewrite format_line_body.
  - repeat (apply Forall_app; split).
    + apply header_lines_no_LF.
    + apply Forall_cons; split; [done|].
      apply Forall_cons; split; [|constructor].
      apply (bool_decide_unpack _). by vm_compute.
    + apply Forall_fmap. eapply Forall_impl; [exact Hfs|].
      intros f. apply line_body_no_LF.
    + apply Forall_cons; split; [|constructor].
      apply (bool_decide_unpack _). by vm_compute.
Qed.

(** X7.  When a run ends normally, each of the two files is, line for
    line: the 29 lines of the licence header, the line that names the
    columns, [#ifdef _c], one line for each record of its list, in the
    order of the list, and [#endif]; so a file has 32 lines more than it
    has records, and no record spreads over two lines. *)
Theorem written_lines vulkan_header format_header w T formats :
  read_vulkan_formats (readlines vulkan_header) ∅ = Ok T →
  read_formats T (readlines format_header) [] = Ok formats →
  ∃ out text1 text2,
    main vulkan_header format_header w = (Ok (), out) ∧
    files out !! "formatMapping.hpp" = Some text1 ∧
    files out !! "compressedFormatMapping.hpp" = Some text2 ∧
    split_lines text1 =
      ((λ b, b ++ [LF]) <$> header_lines) ++
      [u "/* VkFormat, PixelFormat, Implementation::VkFormatSuffix */" ++ [LF];
       u "#ifdef _c" ++ [LF]] ++
      (format_line <$> uncompressed_formats formats) ++ [u "#endif" ++ [LF]] ∧
    split_lines text2 =
      ((λ b, b ++ [LF]) <$> header_lines) ++
      [u "/* VkFormat, CompressedPixelFormat, Implementation::VkFormatSuffix */" ++ [LF];
       u "#ifdef _c" ++ [LF]] ++
      (format_line <$> compressed_formats formats) ++ [u "#endif" ++ [LF]] ∧
    length (split_lines text1) =
      (32 + length (uncompressed_formats formats))%nat ∧
    length (split_lines text2) =
      (32 + length (compressed_formats formats))%nat.
Proof.
  intros HT Hfs. rewrite main_spec, HT, Hfs.
  assert (Forall well_formed (uncompressed_formats formats) ∧
          Forall well_formed (compressed_formats formats)) as [Hw1 Hw2].
  { assert (∀ f, f ∈ formats → well_formed f) as Hall.
    { intros f Hf. by eapply read_formats_well_formed. }
    unfold uncompressed_formats, compressed_formats, partition. cbn [fst snd].
    split; apply Forall_forall; intros f Hf.
    - apply elem_of_filter in Hf as [Hf _]. by apply Hall.
    - apply elem_of_filter in Hf as [Hf _].
      apply elem_of_filter in Hf as [Hf _]. by apply Hall. }
  eexists _, _, _. split; [reflexivity|]. cbn [files].
  split; [by rewrite lookup_insert_ne, lookup_insert_eq|].
  split; [by rewrite lookup_insert_eq|].
  assert (Forall (λ c, c ≠ LF)
            (u "/* VkFormat, PixelFormat, Implementation::VkFormatSuffix */"))
    as Hc1 by (apply (bool_decide_unpack _); by vm_compute).
  assert (Forall (λ c, c ≠ LF)
            (u "/* VkFormat, CompressedPixelFormat, Implementation::VkFormatSuffix */"))
    as Hc2 by (apply (bool_decide_unpack _); by vm_compute).
  rewrite !split_lines_table by done.
  split; [done|]. split; [done|].
  rewrite !length_app, !length_fmap. cbn [length].
  change (length header_lines) with 29%nat. split; lia.
Qed.

(** ** Reading a line back *)

Lemma app_sep_inj (x : N) a : ∀ a' r r',
  Forall (λ c, c ≠ x) a → Forall (λ c, c ≠ x) a' →
  a ++ x :: r = a' ++ x :: r' → a = a' ∧ r = r'.
Proof.
  induction a as [|c a IH]; intros [|c' a'] r r' Ha Ha' H; cbn in H.
  - by injection H as ->.
  - injection H as -> _. by apply Forall_cons in Ha' as [? _].
  - injection H as -> _. by apply Forall_cons in Ha as [? _].
  - injection H as -> H. apply Forall_cons in Ha as [_ Ha].
    apply Forall_cons in Ha' as [_ Ha'].
    by destruct (IH _ _ _ Ha Ha' H) as [-> ->].
Qed.

(** X8.  The line written for a record determines the record, but for
    the flag: two well-formed records with the same line have the same
    value, name, suffix and constant name. *)
Theorem format_line_inj f f' :
  well_formed f → well_formed f' →
  format_line f = format_line f' →
  vulkan f = vulkan f' ∧ magnum f = magnum f' ∧
  suffix f = suffix f' ∧ vulkan_name f = vulkan_name f'.
Proof.
  intros (_ & Hm & _ & Hn & _ & Hv & Hs) (_ & Hm' & _ & Hn' & _ & Hv' & Hs') H.
  unfold format_line in H. apply app_inv_head in H.
  change (u ", ") with (44 :: u " ") in H.
  rewrite <- !(app_comm_cons _ _ 44) in H.
  apply app_sep_inj in H as [Hvv H].
  2,3: eapply Forall_impl; [eassumption|]; by intros c Hc ->.
  apply app_inv_head in H.
  apply app_sep_inj in H as [Hmm H].
  2,3: eapply Forall_impl; [eassumption|]; by intros c Hc ->.
  apply app_inv_head in H.
  change (u ") /* VK_FORMAT_") with (41 :: u " /* VK_FORMAT_") in H.
  rewrite <- !(app_comm_cons _ _ 41) in H.
  apply app_sep_inj in H as [Hss H].
  2,3: apply suffixes_no; auto.
  apply app_inv_head in H.
  change (u " */") with (32 :: u "*/") in H.
  rewrite <- !(app_comm_cons _ _ 32) in H.
  apply app_sep_inj in H as [Hnn _].
  2,3: eapply Forall_impl; [eassumption|]; by intros c Hc ->.
  done.
Qed.

(** ** Constants that no mapping line names *)

Lemma read_format_mono (T T' : gmap (list N) (list N)) m f :
  T ⊆ T' → read_format T m = Ok f → read_format T' m = Ok f.
Proof.
  intros Hsub. unfold read_format, mbind, res_mbind.
  destruct (mem (group m 3) T) eqn:Hmem; [|done].
  apply mem_true in Hmem as [v Hv].
  pose proof (lookup_weaken _ _ _ _ Hv Hsub) as Hv'.
  assert (mem (group m 3) T' = true) as -> by (apply mem_true; eauto).
  unfold getitem. by rewrite Hv, Hv'.
Qed.

Lemma read_formats_mono (T T' : gmap (list N) (list N)) lines : ∀ acc fs,
  T ⊆ T' → read_formats T lines acc = Ok fs → read_formats T' lines acc = Ok fs.
Proof.
  induction lines as [|line lines IH]; intros acc fs Hsub H; [done|].
  rewrite read_formats_cons in H |- *.
  destruct (re_search re_fmt line) as [m|]; [|by apply IH].
  destruct (read_format T m) as [f|] eqn:Hf; [|done].
  rewrite (read_format_mono _ _ _ _ Hsub Hf). by apply IH.
Qed.

(** X9.  Symbols of the first header that no mapping line names make no
    difference.  Take a run that ends normally, and a second first
    header in which every definition of the first one is found again,
    with the same value, among others.  If the second header defines no
    symbol twice, the run on it ends normally in the same world: same
    output, same two files.  If it defines a symbol twice, the run on it
    raises and changes nothing. *)
Theorem unused_constants vulkan_header vulkan_header' format_header w out :
  vk_entries (readlines vulkan_header) ⊆ vk_entries (readlines vulkan_header') →
  main vulkan_header format_header w = (Ok (), out) →
  (NoDup (vk_entries (readlines vulkan_header')).*1 ∧
   main vulkan_header' format_header w = (Ok (), out)) ∨
  (¬ NoDup (vk_entries (readlines vulkan_header')).*1 ∧
   main vulkan_header' format_header w = (Raise AssertionError, w)).
Proof.
  intros Hsub Hmain. rewrite main_spec in Hmain.
  destruct (read_vulkan_formats (readlines vulkan_header) ∅) as [T|] eqn:HT;
    [|done].
  destruct (read_formats T (readlines format_header) []) as [fs|] eqn:Hfs;
    [|done].
  apply read_vulkan_formats_iff in HT as (Hnd & _ & ->).
  destruct (decide (NoDup (vk_entries (readlines vulkan_header')).*1))
    as [Hnd'|Hnd'].
  - left. split; [done|]. rewrite main_spec.
    assert (read_vulkan_formats (readlines vulkan_header') ∅ =
            Ok (list_to_map (vk_entries (readlines vulkan_header')) ∪ ∅))
      as ->.
    { apply read_vulkan_formats_iff. split; [done|]. split; [|done].
      intros k _. apply lookup_empty. }
    assert (list_to_map (vk_entries (readlines vulkan_header)) ∪ ∅ ⊆
            (list_to_map (vk_entries (readlines vulkan_header')) ∪ ∅
               : gmap (list N) (list N))) as Hmap.
    { rewrite !(right_id_L ∅ (∪)). apply map_subseteq_spec. intros k v Hkv.
      apply elem_of_list_to_map; [done|].
      apply Hsub. by apply elem_of_list_to_map. }
    by rewrite (read_formats_mono _ _ _ _ _ Hmap Hfs).
  - right. split; [done|]. rewrite main_spec.
    destruct (read_vulkan_formats (readlines vulkan_header') ∅)
      as [T'|e] eqn:HT'.
    + by apply read_vulkan_formats_iff in HT' as [? _].
    + by destruct e.
Qed.

(** X10.  In a run that ends normally there is one record for each line
    of the second header that the mapping pattern matches, so the warning
    is printed exactly when the number of such lines is not 135. *)
Theorem warning_iff vulkan_header format_header w out :
  main vulkan_header format_header w = (Ok (), out) →
  (stdout out = stdout w ↔
   length (omap (re_search re_fmt) (readlines format_header)) = 135%nat) ∧
  (stdout out = stdout w ++ u "Unexpected number of formats" ++ [LF] ↔
   length (omap (re_search re_fmt) (readlines format_header)) ≠ 135%nat).
Proof.
  rewrite main_spec.
  destruct (read_vulkan_formats _ ∅) as [T|]; [|done].
  destruct (read_formats T _ []) as [fs|] eqn:Hfs; [|done].
  intros [= <-]. cbn [stdout].
  apply read_formats_Ok in Hfs as (new & -> & Hall).
  rewrite app_nil_l. rewrite (Forall2_length _ _ _ Hall). unfold warning.
  destruct (Nat.eqb_spec (length new) 135) as [Heq|Hne].
  - rewrite app_nil_r. split; [done|]. split; [|done].
    intros H. apply (f_equal length) in H. rewrite !length_app in H.
    cbn [length] in H. lia.
  - split; [|done]. split; [|done].
    intros H. apply (f_equal length) in H. rewrite !length_app in H.
    cbn [length] in H. lia.
Qed.

(** ** What [readlines] returns *)

Lemma concat_split_lines s : concat (split_lines s) = s.
Proof.
  induction s as [|c s IH]; [done|]. cbn [split_lines].
  destruct (c =? LF); [cbn; by rewrite IH|].
  destruct (split_lines s) as [|l ls]; cbn in *; by rewrite <- IH.
Qed.

(** Each line is not empty, has no newline but at its end, and only the
    last line may lack it. *)
Lemma split_lines_shape s :
  Forall (λ l, ∃ body, Forall (λ c, c ≠ LF) body ∧
                       (l = body ++ [LF] ∨ l = body ∧ body ≠ []))
         (split_lines s) ∧
  ∀ i l, split_lines s !! i = Some l →
         (S i < length (split_lines s))%nat → ∃ body, l = body ++ [LF].
Proof.
  induction s as [|c s [IH1 IH2]]; [split; [constructor|done]|].
  cbn [split_lines]. destruct (N.eqb_spec c LF) as [->|Hc].
  - split.
    + constructor; [|done]. exists []. split; [constructor|by left].
    + intros [|i] l Hl Hi; cbn in Hl, Hi.
      * injection Hl as <-. by exists [].
      * apply (IH2 i); [done|lia].
  - destruct (split_lines s) as [|l0 ls] eqn:Hs.
    + split.
      * constructor; [|done]. exists [c]. split; [by repeat constructor|by right].
      * intros [|i] l Hl Hi; cbn in Hl, Hi; [lia|done].
    + apply Forall_cons in IH1 as [(body & Hb & Hl0) IH1]. split.
      * constructor; [|done]. exists (c :: body). split; [by constructor|].
        destruct Hl0 as [->|[-> _]]; [by left|by right].
      * intros [|i] l Hl Hi; cbn in Hl, Hi.
        -- injection Hl as <-.
           destruct (IH2 0%nat l0 eq_refl) as [b ->]; [cbn; lia|].
           by exists (c :: b).
        -- apply (IH2 (S i)); [done|cbn; lia].
Qed.

Lemma universal_newlines_no_CR s : Forall (λ c, c ≠ CR) (universal_newlines s).
Proof.
  assert (∀ n s, (length s ≤ n)%nat →
                 Forall (λ c, c ≠ CR) (universal_newlines s)) as H.
  { clear s. induction n as [|n IH]; intros [|c s] Hn; try constructor;
      cbn [length] in Hn; [lia|].
    cbn [universal_newlines]. destruct (N.eqb_spec c CR) as [->|Hc].
    - constructor; [done|]. destruct s as [|c' s'']; [constructor|].
      cbn [length] in Hn. destruct (c' =? LF); apply IH; cbn [length]; lia.
    - constructor; [done|]. apply IH. lia. }
  by apply (H (length s)).
Qed.

Lemma universal_newlines_id s :
  Forall (λ c, c ≠ CR) s → universal_newlines s = s.
Proof.
  induction 1 as [|c s Hc _ IH]; [done|]. cbn [universal_newlines].
  apply N.eqb_neq in Hc. by rewrite Hc, IH.
Qed.

(** X11.  The lines the script reads from a header: put end to end they
    are the text of the header with every line ending turned into a
    newline; no line is empty; none holds a carriage return; a newline
    only ever is the last character of a line, and every line but the
    last one has it. *)
Theorem readlines_lines text :
  concat (readlines text) = universal_newlines text ∧
  (∀ l, l ∈ readlines text →
        l ≠ [] ∧ Forall (λ c, c ≠ CR) l ∧
        ∃ body, Forall (λ c, c ≠ LF) body ∧ (l = body ++ [LF] ∨ l = body)) ∧
  (∀ i l, readlines text !! i = Some l →
          (S i < length (readlines text))%nat → ∃ body, l = body ++ [LF]).
Proof.
  unfold readlines. split; [apply concat_split_lines|].
  destruct (split_lines_shape (universal_newlines text)) as [H1 H2].
  split; [|done]. intros l Hl. rewrite Forall_forall in H1.
  destruct (H1 l Hl) as (body & Hb & Hbody). split; [|split].
  - destruct Hbody as [->|[-> ?]]; [by destruct body|done].
  - pose proof (universal_newlines_no_CR text) as Hcr.
    rewrite <- (concat_split_lines (universal_newlines text)) in Hcr.
    rewrite Forall_concat, Forall_forall in Hcr. by apply Hcr.
  - exists body. split; [done|]. destruct Hbody as [->|[-> _]]; auto.
Qed.

(** ** Line endings *)

Lemma universal_newlines_to_crlf s :
  Forall (λ c, c ≠ CR) s → universal_newlines (to_crlf s) = s.
Proof.
  induction 1 as [|c s Hc _ IH]; [done|].
  unfold to_crlf in *. cbn [mbind list_bind].
  destruct (N.eqb_spec c LF) as [->|Hlf].
  - cbn [app universal_newlines]. cbn. by rewrite IH.
  - cbn [app universal_newlines]. apply N.eqb_neq in Hc. by rewrite Hc, IH.
Qed.

(** X12.  Headers saved with carriage return, newline line endings give
    the same run as the same headers with plain newlines. *)
Theorem crlf_headers vulkan_header format_header w :
  Forall (λ c, c ≠ CR) vulkan_header → Forall (λ c, c ≠ CR) format_header →
  main (to_crlf vulkan_header) (to_crlf format_header) w =
  main vulkan_header format_header w.
Proof.
  intros H1 H2. rewrite !main_spec. unfold readlines.
  by rewrite !universal_newlines_to_crlf, !universal_newlines_id.
Qed.

(** ** Nothing lost between the list and the files *)

Lemma filter_split_perm {A : Type} (p : A → bool) (l : list A) :
  l ≡ₚ List.filter p l ++ List.filter (λ x, negb (p x)) l.
Proof.
  induction l as [|x l IH]; [done|]. cbn [List.filter].
  destruct (p x); cbn [negb app].
  - by constructor.
  - rewrite <- Permutation_middle. by constructor.
Qed.

(** X13.  The records of the two files and the compressed [Pvrtc2]
    records together are the records built, each as many times as it was
    built: nothing else is left out and nothing is written twice. *)
Theorem partition_conserves formats :
  formats ≡ₚ uncompressed_formats formats ++ compressed_formats formats ++
             dropped_formats formats ∧
  length formats =
    (length (uncompressed_formats formats) +
     length (compressed_formats formats) +
     length (dropped_formats formats))%nat ∧
  (∀ f, f ∈ dropped_formats formats ↔
        f ∈ formats ∧ compressed f = true ∧
        startswith (magnum f) (u "Pvrtc2") = true).
Proof.
  assert (formats ≡ₚ uncompressed_formats formats ++
                     compressed_formats formats ++ dropped_formats formats)
    as Hperm.
  { unfold uncompressed_formats, compressed_formats, dropped_formats, partition.
    cbn [fst snd].
    rewrite (filter_split_perm compressed formats) at 1.
    rewrite (Permutation_app_comm (List.filter compressed formats)).
    apply Permutation_app_head.
    rewrite (filter_split_perm (λ f, startswith (magnum f) (u "Pvrtc2"))
               (List.filter compressed formats)) at 1.
    apply Permutation_app_comm. }
  split; [done|]. split.
  - rewrite Hperm at 1. rewrite !length_app. lia.
  - intros f. unfold dropped_formats. rewrite !elem_of_filter. tauto.
Qed.

(** ** A header in two parts *)

Lemma universal_newlines_app a b :
  universal_newlines ((a ++ [LF]) ++ b) =
  universal_newlines (a ++ [LF]) ++ universal_newlines b.
Proof.
  assert (∀ n a, (length a ≤ n)%nat →
            universal_newlines ((a ++ [LF]) ++ b) =
            universal_newlines (a ++ [LF]) ++ universal_newlines b) as H.
  { clear a. induction n as [|n IH]; intros [|c a] Hn; try done;
      cbn [length] in Hn; [lia|].
    cbn [app universal_newlines]. destruct (c =? CR).
    - destruct a as [|c' a']; [done|]. cbn [app length] in *.
      destruct (c' =? LF).
      + rewrite IH by lia. done.
      + assert (length (c' :: a') ≤ n)%nat as Hlen by (cbn [length]; lia).
        pose proof (IH (c' :: a') Hlen) as H'. cbn [app] in H'.
        by rewrite H'.
    - rewrite IH by lia. done. }
  by apply (H (length a)).
Qed.

Lemma universal_newlines_end a : ∃ x, universal_newlines (a ++ [LF]) = x ++ [LF].
Proof.
  assert (∀ n a, (length a ≤ n)%nat →
            ∃ x, universal_newlines (a ++ [LF]) = x ++ [LF]) as H.
  { clear a. induction n as [|n IH]; intros [|c a] Hn;
      try (by exists []); cbn [length] in Hn; [lia|].
    cbn [app universal_newlines]. destruct (c =? CR).
    - destruct a as [|c' a']; [by exists []|]. cbn [app length] in *.
      destruct (c' =? LF).
      + destruct (IH a') as [x ->]; [lia|]. by exists (LF :: x).
      + destruct (IH (c' :: a')) as [x Hx]; [cbn [length]; lia|].
        cbn [app] in Hx. rewrite Hx. by exists (LF :: x).
    - destruct (IH a) as [x ->]; [lia|]. by exists (c :: x). }
  by apply (H (length a)).
Qed.

Lemma readlines_app a b :
  readlines ((a ++ [LF]) ++ b) = readlines (a ++ [LF]) ++ readlines b.
Proof.
  unfold readlines. rewrite universal_newlines_app.
  destruct (universal_newlines_end a) as [x ->]. apply split_lines_app.
Qed.

Lemma read_formats_acc T lines : ∀ acc,
  read_formats T lines acc =
  res_bind (λ new, Ok (acc ++ new)) (read_formats T lines []).
Proof.
  induction lines as [|line lines IH]; intros acc.
  - cbn. by rewrite app_nil_r.
  - rewrite !read_formats_cons.
    destruct (re_search re_fmt line) as [m|]; [|apply IH].
    destruct (read_format T m) as [f|]; [|done].
    rewrite (IH (acc ++ [f])), (IH ([] ++ [f])).
    destruct (read_formats T lines []); [|done].
    cbn [res_bind]. by rewrite <- !app_assoc.
Qed.

Lemma read_formats_app T l1 l2 : ∀ acc,
  read_formats T (l1 ++ l2) acc =
  res_bind (read_formats T l2) (read_formats T l1 acc).
Proof.
  induction l1 as [|line l1 IH]; intros acc; [done|].
  rewrite <- app_comm_cons, !read_formats_cons.
  destruct (re_search re_fmt line) as [m|]; [|apply IH].
  destruct (read_format T m) as [f|]; [|done]. apply IH.
Qed.

(** X14.  The second loop on a header made of two parts, the first of
    which ends in a newline, ends normally exactly when it does on each
    part, and its records are those of the first part followed by those
    of the second. *)
Theorem records_of_two_parts T a b fs :
  read_formats T (readlines ((a ++ [LF]) ++ b)) [] = Ok fs ↔
  ∃ fa fb,
    read_formats T (readlines (a ++ [LF])) [] = Ok fa ∧
    read_formats T (readlines b) [] = Ok fb ∧
    fs = fa ++ fb.
Proof.
  rewrite readlines_app, read_formats_app.
  destruct (read_formats T (readlines (a ++ [LF])) []) as [fa|e]; cbn [res_bind].
  - rewrite read_formats_acc.
    destruct (read_formats T (readlines b) []) as [fb|e]; cbn [res_bind].
    + split.
      * intros [= <-]. by exists fa, fb.
      * by intros (? & ? & [= <-] & [= <-] & ->).
    + split; [done|]. by intros (? & ? & _ & ? & _).
  - split; [done|]. by intros (? & ? & ? & _).
Qed.

End Unicode.

(** * The theorems at concrete inputs *)

Lemma example_line_in (line : list N) (lines : list (list N)) :
  bool_decide (line ∈ lines) = true → line ∈ lines.
Proof. apply bool_decide_eq_true_1. Qed.

(** C1 on the example headers, which hold the two lines among others. *)
Lemma C1_r8_unorm_example_witness :
  ∃ text,
    files (main no_unicode no_unicode no_unicode
             example_vulkan_header example_format_header stale_world).2
      !! "formatMapping.hpp" = Some text ∧
    u "_c(9, R8Unorm, UNORM) /* VK_FORMAT_R8_UNORM */" ++ [LF]
      ∈ split_lines text.
Proof.
  destruct (C1_r8_unorm_example no_unicode no_unicode no_unicode stale_world)
    as [_ H].
  apply (H example_vulkan_header example_format_header).
  - right. apply example_line_in. vm_compute. reflexivity.
  - right. apply example_line_in. vm_compute. reflexivity.
  - vm_compute. reflexivity.
Defined.

(** C2 on the example headers: one plain record, one compressed record,
    and the compressed [Pvrtc2] record in neither file. *)
Lemma C2_partition_witness :
  ∃ out plain packed,
    main no_unicode no_unicode no_unicode
      example_vulkan_header example_format_header stale_world = (Ok (), out) ∧
    plain =
      [ mkFormat false (u "R8Unorm") (u "R8_UNORM") (u "9") (u "UNORM");
        mkFormat false (u "R32F") (u "R32_SFLOAT") (u "100") (u "SFLOAT") ] ∧
    packed =
      [ mkFormat true (u "Bc1RGBAUnorm") (u "BC1_RGBA_UNORM_BLOCK") (u "0133")
          (u "UNORM") ] ∧
    files out !! "compressedFormatMapping.hpp" =
      Some (table (u "/* VkFormat, CompressedPixelFormat, Implementation::VkFormatSuffix */" ++ [LF]) packed).
Proof.
  destruct (C2_partition no_unicode no_unicode no_unicode
              example_vulkan_header example_format_header stale_world
              example_vulkan_formats example_formats)
    as (out & plain & packed & Hmain & _ & Hfile & _ & Hplain & Hpacked & _).
  { vm_compute. reflexivity. }
  { vm_compute. reflexivity. }
  exists out, plain, packed.
  split; [exact Hmain|]. split; [rewrite Hplain; reflexivity|].
  split; [rewrite Hpacked; reflexivity|]. exact Hfile.
Defined.

(** C3 on four pairs of headers, one for each condition. *)
Lemma C3_fatal_conditions_witness :
  main no_unicode no_unicode no_unicode
    (u "  VK_FORMAT_R8_UNORM = 9," ++ [LF] ++
     u "  VK_FORMAT_R8_UNORM = 10," ++ [LF])
    [] stale_world = (Raise AssertionError, stale_world) ∧
  main no_unicode no_unicode no_unicode
    (u "  VK_FORMAT_R8_UNORM = 9," ++ [LF])
    (u "  R8Snorm = VK_FORMAT_R8_SNORM," ++ [LF])
    stale_world = (Raise AssertionError, stale_world) ∧
  main no_unicode no_unicode no_unicode
    (u "  VK_FORMAT_UNDEFINED = 0," ++ [LF])
    (u "  Undefined = VK_FORMAT_UNDEFINED," ++ [LF])
    stale_world = (Raise AssertionError, stale_world) ∧
  main no_unicode no_unicode no_unicode
    (u "  VK_FORMAT_R8G8B8_URGB = 1," ++ [LF])
    (u "  RGB8Urgb = VK_FORMAT_R8G8B8_URGB," ++ [LF])
    stale_world = (Raise AssertionError, stale_world).
Proof.
  split; [|split; [|split]].
  - apply (C3_fatal_conditions no_unicode no_unicode no_unicode).
    eapply (duplicate_symbol _ _ _ _ _
              [u "  VK_FORMAT_R8_UNORM = 9," ++ [LF]]
              (u "  VK_FORMAT_R8_UNORM = 10," ++ [LF]) []).
    + vm_compute. reflexivity.
    + vm_compute. reflexivity.
    + vm_compute. reflexivity.
    + eexists. vm_compute. reflexivity.
  - apply (C3_fatal_conditions no_unicode no_unicode no_unicode).
    eapply (undefined_constant _ _ _ _ _ _
              (u "  R8Snorm = VK_FORMAT_R8_SNORM," ++ [LF])).
    + vm_compute. reflexivity.
    + apply example_line_in. vm_compute. reflexivity.
    + vm_compute. reflexivity.
    + vm_compute. reflexivity.
  - apply (C3_fatal_conditions no_unicode no_unicode no_unicode).
    eapply (no_suffix _ _ _ _ _
              (u "  Undefined = VK_FORMAT_UNDEFINED," ++ [LF])).
    + apply example_line_in. vm_compute. reflexivity.
    + vm_compute. reflexivity.
    + vm_compute. reflexivity.
  - apply (C3_fatal_conditions no_unicode no_unicode no_unicode).
    eapply (urgb_suffix _ _ _ _ _
              (u "  RGB8Urgb = VK_FORMAT_R8G8B8_URGB," ++ [LF])).
    + apply example_line_in. vm_compute. reflexivity.
    + vm_compute. reflexivity.
    + vm_compute. reflexivity.
    + vm_compute. reflexivity.
Defined.

(** C4 on a mapping line whose constant ends in [_URGB]. *)
Lemma C4_urgb_no_output_witness :
  ∃ out,
    main no_unicode no_unicode no_unicode
      example_vulkan_header
      (example_format_header ++ u "  RGB8Urgb = VK_FORMAT_R8G8B8_URGB," ++ [LF])
      stale_world = (Raise AssertionError, out) ∧
    files out = files stale_world ∧ stdout out = stdout stale_world ∧
    files out !! "formatMapping.hpp" = files stale_world !! "formatMapping.hpp" ∧
    files out !! "compressedFormatMapping.hpp" =
      files stale_world !! "compressedFormatMapping.hpp".
Proof.
  eapply (C4_urgb_no_output no_unicode no_unicode no_unicode _ _ _
            (u "  RGB8Urgb = VK_FORMAT_R8G8B8_URGB," ++ [LF])).
  - apply example_line_in. vm_compute. reflexivity.
  - vm_compute. reflexivity.
  - vm_compute. reflexivity.
  - vm_compute. reflexivity.
Defined.

(** C5 on the example headers: four records, so the warning is printed,
    and both files are written; and on a second header of 135 mapping
    lines, where nothing is printed. *)
Lemma C5_soft_count_check_witness :
  (∃ out,
     main no_unicode no_unicode no_unicode
       example_vulkan_header example_format_header stale_world = (Ok (), out) ∧
     stdout out =
       stdout stale_world ++ u "Unexpected number of formats" ++ [LF] ∧
     is_Some (files out !! "formatMapping.hpp") ∧
     is_Some (files out !! "compressedFormatMapping.hpp")) ∧
  (∃ out,
     main no_unicode no_unicode no_unicode
       example_vulkan_header example_135_header stale_world = (Ok (), out) ∧
     stdout out = stdout stale_world).
Proof.
  split.
  - destruct (C5_soft_count_check no_unicode no_unicode no_unicode
                example_vulkan_header example_format_header stale_world
                example_vulkan_formats example_formats)
      as (out & Hmain & _ & Hwarn & _ & Hf1 & Hf2).
    { vm_compute. reflexivity. }
    { vm_compute. reflexivity. }
    exists out. split; [exact Hmain|]. split.
    + apply Hwarn. vm_compute. discriminate.
    + split; eexists; eassumption.
  - destruct (C5_soft_count_check no_unicode no_unicode no_unicode
                example_vulkan_header example_135_header stale_world
                example_vulkan_formats
                (replicate 135
                   (mkFormat false (u "R8Unorm") (u "R8_UNORM") (u "9")
                      (u "UNORM"))))
      as (out & Hmain & _ & _ & Hquiet & _).
    { vm_compute. reflexivity. }
    { vm_compute. reflexivity. }
    exists out. split; [exact Hmain|]. apply Hquiet. vm_compute. reflexivity.
Defined.

(** The claim C6 as first stated fails: the name [X_SFLOAT_SRGB] holds
    [_SFLOAT], and the record built from it has the suffix [SRGB]; the
    name [_SFLOAT] holds it too, and the pattern finds nothing in it. *)
Lemma C6_counterexample :
  u "X_SFLOAT_SRGB" = u "X" ++ u "_SFLOAT" ++ u "_SRGB" ∧
  read_formats no_unicode no_unicode {[ u "X_SFLOAT_SRGB" := u "1" ]}
    [u "  A = VK_FORMAT_X_SFLOAT_SRGB," ++ [LF]] [] =
    Ok [mkFormat false (u "A") (u "X_SFLOAT_SRGB") (u "1") (u "SRGB")] ∧
  (λ sm, group sm 1) <$> re_search (re_suffix no_unicode) (u "X_SFLOAT_SRGB") =
    Some (u "SRGB") ∧
  u "SRGB" ≠ u "SFLOAT" ∧
  re_search (re_suffix no_unicode) (u "_SFLOAT") = None.
Proof.
  split; [reflexivity|]. split; [vm_compute; reflexivity|].
  split; [vm_compute; reflexivity|]. split; [discriminate|].
  vm_compute. reflexivity.
Qed.

(** C6 (amended) on the line of the example that names [R32_SFLOAT]. *)
Lemma C6_suffix_derivation_witness :
  (λ sm, group sm 1) <$> re_search (re_suffix no_unicode) (u "R32_SFLOAT") =
    Some (u "SFLOAT").
Proof.
  destruct (C6_suffix_derivation no_unicode no_unicode no_unicode
              example_vulkan_header example_format_header stale_world
              (u "  R32F = VK_FORMAT_R32_SFLOAT" ++ [LF])
              (<[3%nat := u "R32_SFLOAT"]> (<[2%nat := u "R32F"]> ∅)))
    as [_ H].
  { apply example_line_in. vm_compute. reflexivity. }
  { vm_compute. reflexivity. }
  apply (H (u "R32") []).
  - reflexivity.
  - discriminate.
  - apply (no_later_candidate _ (u "R32") (u "SFLOAT") []).
    + reflexivity.
    + vm_compute. reflexivity.
Defined.

(** C7 on the example headers: the value [0133] is kept as written. *)
Lemma C7_source_value_witness :
  ∃ line m ws tl,
    line ∈ readlines example_vulkan_header ∧
    re_search (re_vk no_unicode no_unicode no_unicode) line = Some m ∧
    group m 1 = u "BC1_RGBA_UNORM_BLOCK" ∧ group m 2 = u "0133" ∧
    line = ws ++ u "VK_FORMAT_" ++ u "BC1_RGBA_UNORM_BLOCK" ++ u " = " ++
           u "0133" ++ tl ∧
    tl ∈ line_ends ∧
    u "0133" ≠ [] ∧ Forall (λ c, is_digit no_unicode c = true) (u "0133").
Proof.
  destruct (C7_source_value no_unicode no_unicode no_unicode
              example_vulkan_header example_format_header
              example_vulkan_formats example_formats)
    as (_ & _ & H).
  { vm_compute. reflexivity. }
  { vm_compute. reflexivity. }
  apply H. vm_compute. reflexivity.
Defined.

(** C8 on the example headers, from a world with a stale file and from
    an empty one. *)
Lemma C8_deterministic_witness :
  files (main no_unicode no_unicode no_unicode
           example_vulkan_header example_format_header stale_world).2
    !! "formatMapping.hpp" =
  files (main no_unicode no_unicode no_unicode
           example_vulkan_header example_format_header empty_world).2
    !! "formatMapping.hpp".
Proof.
  destruct (C8_deterministic no_unicode no_unicode no_unicode
              example_vulkan_header example_format_header
              stale_world empty_world) as (_ & H & _).
  apply H.
  - vm_compute. reflexivity.
  - apply list_elem_of_In. simpl. tauto.
Defined.

(** C9 on the compressed record of the example. *)
Lemma C9_suffix_set_witness :
  u "UNORM" ∈ suffixes ∧
  Forall (λ c, is_word no_unicode c = true) (u "BC1_RGBA_UNORM_BLOCK") ∧
  U_bar_S 124 = true ∧ is_word no_unicode 124 = false ∧
  ∃ c k, u "UNORM" = c :: k ∧ (c = 85 ∨ c = 83) ∧ k ∈ kinds.
Proof.
  apply (C9_suffix_set no_unicode no_unicode no_unicode
           example_vulkan_header example_format_header
           example_vulkan_formats example_formats
           (mkFormat true (u "Bc1RGBAUnorm") (u "BC1_RGBA_UNORM_BLOCK")
              (u "0133") (u "UNORM"))).
  - vm_compute. reflexivity.
  - vm_compute. reflexivity.
  - left. apply list_elem_of_In. vm_compute. tauto.
Defined.

(** C10 on a first header that defines [X_SFLOAT_SRGB] and a mapping
    line that names it: the record has the suffix [SRGB]. *)
Lemma C10_rightmost_token_witness :
  read_format no_unicode {[ u "X_SFLOAT_SRGB" := u "7" ]}
    (<[3%nat := u "X_SFLOAT_SRGB"]> (<[2%nat := u "A"]> ∅)) =
    Ok (mkFormat false (u "A") (u "X_SFLOAT_SRGB") (u "7") (u "SRGB")) ∧
  u "SRGB" ≠ u "SFLOAT".
Proof.
  destruct (C10_rightmost_token no_unicode no_unicode no_unicode
              (u "  VK_FORMAT_X_SFLOAT_SRGB = 7," ++ [LF])
              (u "  A = VK_FORMAT_X_SFLOAT_SRGB," ++ [LF])
              {[ u "X_SFLOAT_SRGB" := u "7" ]}) as (_ & H & _).
  { vm_compute. reflexivity. }
  refine (H (u "  A = VK_FORMAT_X_SFLOAT_SRGB," ++ [LF])
            (<[3%nat := u "X_SFLOAT_SRGB"]> (<[2%nat := u "A"]> ∅))
            (u "X") (u "7") _ _ _ _).
  - vm_compute. reflexivity.
  - vm_compute. reflexivity.
  - discriminate.
  - reflexivity.
Defined.

(** * The further properties at concrete inputs *)

(** X2 on a mapping line whose identifier is the qualifier alone: it is
    not compressed and is kept whole. *)
Lemma fmt_line_iff_witness :
  ∃ m, re_search (re_fmt no_unicode no_unicode)
         (u "  Compressed = VK_FORMAT_R8_UNORM,") = Some m ∧
       bool_decide (is_Some (m !! 1%nat)) = false ∧
       m !! 2%nat = Some (u "Compressed") ∧ m !! 3%nat = Some (u "R8_UNORM").
Proof.
  apply (fmt_line_iff no_unicode no_unicode
           (u "  Compressed = VK_FORMAT_R8_UNORM,") false
           (u "Compressed") (u "R8_UNORM")).
  - intros c _. reflexivity.
  - exists (u "  "), (u "Compressed"), (u ",").
    split; [reflexivity|]. split; [discriminate|].
    split; [repeat constructor|]. split; [discriminate|].
    split; [repeat constructor|]. split; [discriminate|].
    split; [repeat constructor|].
    split; [apply example_line_in; vm_compute; reflexivity|].
    split; reflexivity.
Defined.

(** X6 on the example headers. *)
Lemma records_well_formed_witness :
  Forall (well_formed no_unicode no_unicode) example_formats.
Proof.
  destruct (records_well_formed no_unicode no_unicode no_unicode
              example_vulkan_header example_format_header
              example_vulkan_formats example_formats) as [H _].
  - vm_compute. reflexivity.
  - vm_compute. reflexivity.
  - exact H.
Defined.

(** X7 on the example headers: two records in the first file, so 34
    lines. *)
Lemma written_lines_witness :
  ∃ out text1,
    main no_unicode no_unicode no_unicode
      example_vulkan_header example_format_header stale_world = (Ok (), out) ∧
    files out !! "formatMapping.hpp" = Some text1 ∧
    length (split_lines text1) = 34%nat.
Proof.
  destruct (written_lines no_unicode no_unicode no_unicode
              example_vulkan_header example_format_header stale_world
              example_vulkan_formats example_formats)
    as (out & text1 & text2 & Hmain & Hf1 & _ & _ & _ & Hlen & _).
  - vm_compute. reflexivity.
  - vm_compute. reflexivity.
  - exists out, text1. split; [exact Hmain|]. split; [exact Hf1|].
    rewrite Hlen. reflexivity.
Defined.

(** X8 on two records that differ in the flag only. *)
Lemma format_line_inj_witness :
  vulkan (mkFormat false (u "R8Unorm") (u "R8_UNORM") (u "9") (u "UNORM")) =
    vulkan (mkFormat true (u "R8Unorm") (u "R8_UNORM") (u "9") (u "UNORM")) ∧
  magnum (mkFormat false (u "R8Unorm") (u "R8_UNORM") (u "9") (u "UNORM")) =
    magnum (mkFormat true (u "R8Unorm") (u "R8_UNORM") (u "9") (u "UNORM")) ∧
  suffix (mkFormat false (u "R8Unorm") (u "R8_UNORM") (u "9") (u "UNORM")) =
    suffix (mkFormat true (u "R8Unorm") (u "R8_UNORM") (u "9") (u "UNORM")) ∧
  vulkan_name (mkFormat false (u "R8Unorm") (u "R8_UNORM") (u "9") (u "UNORM")) =
    vulkan_name (mkFormat true (u "R8Unorm") (u "R8_UNORM") (u "9") (u "UNORM")).
Proof.
  apply (format_line_inj no_unicode no_unicode).
  - split; [discriminate|]. split; [repeat constructor|].
    split; [discriminate|]. split; [repeat constructor|].
    split; [discriminate|]. split; [repeat constructor|].
    apply example_line_in. vm_compute. reflexivity.
  - split; [discriminate|]. split; [repeat constructor|].
    split; [discriminate|]. split; [repeat constructor|].
    split; [discriminate|]. split; [repeat constructor|].
    apply example_line_in. vm_compute. reflexivity.
  - reflexivity.
Defined.

(** X9 on a first header of one line and the example header, which
    defines the same symbol and three more, none of them twice. *)
Lemma unused_constants_witness :
  main no_unicode no_unicode no_unicode
    example_vulkan_header (u "  R8Unorm = VK_FORMAT_R8_UNORM," ++ [LF])
    stale_world =
  (Ok (),
   (main no_unicode no_unicode no_unicode
      (u "  VK_FORMAT_R8_UNORM = 9," ++ [LF])
      (u "  R8Unorm = VK_FORMAT_R8_UNORM," ++ [LF]) stale_world).2).
Proof.
  destruct (unused_constants no_unicode no_unicode no_unicode
              (u "  VK_FORMAT_R8_UNORM = 9," ++ [LF]) example_vulkan_header
              (u "  R8Unorm = VK_FORMAT_R8_UNORM," ++ [LF]) stale_world
              (main no_unicode no_unicode no_unicode
                 (u "  VK_FORMAT_R8_UNORM = 9," ++ [LF])
                 (u "  R8Unorm = VK_FORMAT_R8_UNORM," ++ [LF]) stale_world).2)
    as [[_ H]|[Hnd _]].
  - intros e He. apply list_elem_of_In. apply list_elem_of_In in He.
    vm_compute in He. destruct He as [<-|[]]. vm_compute. tauto.
  - vm_compute. reflexivity.
  - exact H.
  - exfalso. apply Hnd. apply (bool_decide_unpack _). vm_compute. exact I.
Defined.

(** X10 on the example headers: four lines match, and the warning is
    printed. *)
Lemma warning_iff_witness :
  stdout (main no_unicode no_unicode no_unicode
            example_vulkan_header example_format_header stale_world).2 =
  stdout stale_world ++ u "Unexpected number of formats" ++ [LF].
Proof.
  destruct (warning_iff no_unicode no_unicode no_unicode
              example_vulkan_header example_format_header stale_world
              (main no_unicode no_unicode no_unicode
                 example_vulkan_header example_format_header stale_world).2)
    as [_ [_ H]].
  - vm_compute. reflexivity.
  - apply H. vm_compute. discriminate.
Defined.

(** X12 on the example headers. *)
Lemma crlf_headers_witness :
  main no_unicode no_unicode no_unicode
    (to_crlf example_vulkan_header) (to_crlf example_format_header)
    stale_world =
  main no_unicode no_unicode no_unicode
    example_vulkan_header example_format_header stale_world.
Proof.
  apply (crlf_headers no_unicode no_unicode no_unicode).
  - apply (bool_decide_unpack _). vm_compute. exact I.
  - apply (bool_decide_unpack _). vm_compute. exact I.
Defined.
